(** * Spotify playlist and album downloader

    A shallow embedding of [spotify_playlist_downloader.py] and the
    properties of its specification.

    The embedding follows the Python source function by function and keeps
    its names.  What the source leaves to the Python runtime (the Unicode
    character database, [repr], the JSON codec) or to the operating system
    (the external tools [spotdl] and [yt-dlp], temporary file names) is a
    field of the classes [PyRuntime] and [Environment]; everything else is
    computed. *)

From Stdlib Require Import ZArith NArith List String Ascii Bool Lia SpecFloat.
From stdpp Require Import base tactics option list numbers strings gmap pretty.

Set Default Proof Using "Type".
#[local] Set Warnings "-register-all".

(** ** Python strings

    A Python [str] is a sequence of Unicode code points. *)

Definition char := N.
Definition str := list char.

(** A string literal of the source (ASCII only). *)
Definition lit (s : string) : str :=
  (λ a, N_of_ascii a) <$> list_ascii_of_string s.

Definition char_eqb (a b : char) : bool := N.eqb a b.

Fixpoint str_eqb (s t : str) : bool :=
  match s, t with
  | [], [] => true
  | a :: s', b :: t' => char_eqb a b && str_eqb s' t'
  | _, _ => false
  end.

(** [Py_UNICODE_ISSPACE]: the characters that [\s] matches in a [str]
    pattern and that [str.strip()] removes. *)
Definition is_space (c : char) : bool :=
  ((9 <=? c) && (c <=? 13) || (28 <=? c) && (c <=? 32)
   || (c =? 133) || (c =? 160) || (c =? 5760)
   || (8192 <=? c) && (c <=? 8202)
   || (c =? 8232) || (c =? 8233) || (c =? 8239) || (c =? 8287)
   || (c =? 12288))%N.

Definition is_ascii (c : char) : bool := (c <? 128)%N.

Definition ascii_isupper (c : char) : bool := ((65 <=? c) && (c <=? 90))%N.
Definition ascii_islower (c : char) : bool := ((97 <=? c) && (c <=? 122))%N.
Definition ascii_isdigit (c : char) : bool := ((48 <=? c) && (c <=? 57))%N.
Definition ascii_isalnum (c : char) : bool :=
  ascii_isdigit c || ascii_isupper c || ascii_islower c.

Definition ascii_lower (c : char) : char :=
  if ascii_isupper c then (c + 32)%N else c.
Definition ascii_upper (c : char) : char :=
  if ascii_islower c then (c - 32)%N else c.

(** [str.title()] on ASCII text: the first letter of every run of letters
    in upper case, the others in lower case. *)
Fixpoint ascii_title_from (prev_cased : bool) (s : str) : str :=
  match s with
  | [] => []
  | c :: s' =>
      let cased := ascii_isupper c || ascii_islower c in
      (if prev_cased then ascii_lower c else ascii_upper c)
        :: ascii_title_from cased s'
  end.
Definition ascii_title (s : str) : str := ascii_title_from false s.

(** ** Python values

    The values [json.load] produces, and so every value the program
    handles.  A float is an IEEE 754 value; a dict is the list of its items
    in insertion order, looked up by key. *)

Inductive pyval : Type :=
  | PNone
  | PBool (b : bool)
  | PInt (z : Z)
  | PFloat (f : spec_float)
  | PStr (s : str)
  | PList (l : list pyval)
  | PDict (d : list (str * pyval)).

(** [bool(v)], the truth value tested by [if v] and [not v]. *)
Definition truthy (v : pyval) : bool :=
  match v with
  | PNone => false
  | PBool b => b
  | PInt z => negb (z =? 0)%Z
  | PFloat f => match f with S754_zero _ => false | _ => true end
  | PStr s => match s with [] => false | _ => true end
  | PList l => match l with [] => false | _ => true end
  | PDict d => match d with [] => false | _ => true end
  end.

(** [v == s] for a string literal [s]. *)
Definition eq_str (v : pyval) (s : str) : bool :=
  match v with
  | PStr t => str_eqb t s
  | _ => false
  end.

Fixpoint dict_get (d : list (str * pyval)) (key : str) : option pyval :=
  match d with
  | [] => None
  | (k, v) :: d' => if str_eqb k key then Some v else dict_get d' key
  end.

(** What the source takes from the Python runtime. *)
Class PyRuntime := {
  (** [str.isalnum] of a character outside ASCII *)
  unicode_isalnum : char → bool;
  (** [str.lower] of a string with a character outside ASCII *)
  unicode_lower : str → str;
  (** [str.title] of a string with a character outside ASCII *)
  unicode_title : str → str;
  (** [repr] of a float, a list or a dict *)
  py_repr : pyval → str;
  (** [json.loads] of a text that is not empty; [None] is a
      [JSONDecodeError] *)
  json_decode : str → option pyval;
  (** [json.dumps(v, indent=2, ensure_ascii=False)] *)
  json_encode : pyval → str;
}.

Section Downloader.
Context `{R : PyRuntime}.

(** [\w] in a [str] pattern. *)
Definition is_word (c : char) : bool :=
  (if is_ascii c then ascii_isalnum c else unicode_isalnum c) || (c =? 95)%N.

Definition py_lower (s : str) : str :=
  if forallb is_ascii s then ascii_lower <$> s else unicode_lower s.

Definition py_title (s : str) : str :=
  if forallb is_ascii s then ascii_title s else unicode_title s.

(** [str(v)], also what an f-string inserts for [{v}]. *)
Definition py_str (v : pyval) : str :=
  match v with
  | PNone => lit "None"
  | PBool true => lit "True"
  | PBool false => lit "False"
  | PInt z => lit (pretty z)
  | PStr s => s
  | _ => py_repr v
  end.

(** [s.strip()] *)
Fixpoint lstrip (s : str) : str :=
  match s with
  | c :: s' => if is_space c then lstrip s' else s
  | [] => []
  end.
Definition rstrip (s : str) : str := reverse (lstrip (reverse s)).
Definition py_strip (s : str) : str := rstrip (lstrip s).

(** [re.sub(p, repl, s)] for a pattern [p] that is one character class. *)
Definition re_sub_class (cls : char → bool) (repl : str) (s : str) : str :=
  mjoin ((λ c, if cls c then repl else [c]) <$> s).

(** The character class of the first pattern: less-than, greater-than,
    colon, double quote, slash, backslash, bar, question mark, star. *)
Definition is_reserved (c : char) : bool :=
  ((c =? 60) || (c =? 62) || (c =? 58) || (c =? 34) || (c =? 47)
   || (c =? 92) || (c =? 124) || (c =? 63) || (c =? 42))%N.

(** The character class of the second pattern: not a word character,
    not white space, not one of dash, underscore, dot. *)
Definition is_unsafe (c : char) : bool :=
  negb (is_word c || is_space c || (c =? 45) || (c =? 95) || (c =? 46))%N.

(** [clean_filename].  [str(filename)] raises for one kind of value only, an
    int beyond the digit limit of the interpreter (4300 digits since
    CPython 3.11), and [json.load] refuses such a number: on the values the
    program handles the handler that returns [unknown_file] is never
    entered.  [within_digit_limit] below names those values. *)
Definition clean_filename (filename : pyval) : str :=
  let filename := re_sub_class is_reserved (lit "_") (py_str filename) in
  let filename := re_sub_class is_unsafe (lit "_") filename in
  take 200 (py_strip filename).

(** ** Searching and splitting strings *)

Fixpoint starts_with (sub s : str) : bool :=
  match sub, s with
  | [], _ => true
  | a :: sub', b :: s' => char_eqb a b && starts_with sub' s'
  | _ :: _, [] => false
  end.

(** The first occurrence of [sub] in [s], as the text before it and the
    text after it. *)
Fixpoint str_find (sub s : str) : option (str * str) :=
  if starts_with sub s then Some ([], drop (length sub) s)
  else match s with
       | [] => None
       | c :: s' =>
           match str_find sub s' with
           | Some (before, after) => Some (c :: before, after)
           | None => None
           end
       end.

(** [sub in s] for two strings. *)
Definition str_contains (sub s : str) : bool :=
  match str_find sub s with Some _ => true | None => false end.

(** [s.split(sep)] for a separator that is not empty: the occurrences of
    [sep] are found from the left and do not overlap.  No string has more
    occurrences than characters, which bounds the recursion. *)
Fixpoint split_upto (n : nat) (sep s : str) : list str :=
  match n with
  | O => [s]
  | S n' =>
      match str_find sep s with
      | Some (before, after) => before :: split_upto n' sep after
      | None => [s]
      end
  end.
Definition py_split (sep s : str) : list str := split_upto (length s) sep s.

(** [sep.join(items)] *)
Fixpoint str_join (sep : str) (items : list str) : str :=
  match items with
  | [] => []
  | [x] => x
  | x :: items' => x ++ sep ++ str_join sep items'
  end.

(** ** Exceptions

    The classes of [Exception] that the program can meet.  Every handler
    of the source is [except:] or [except Exception], so the class never
    decides which handler runs. *)
Inductive exn : Type :=
  | TypeError
  | AttributeError
  | CalledProcessError
  | FileNotFoundError
  | FileExistsError
  | IsADirectoryError
  | JSONDecodeError
  | UnicodeEncodeError
  | OSError.

Inductive result (A : Type) : Type :=
  | Ok (a : A)
  | Raise (e : exn).
Global Arguments Ok {A} a.
Global Arguments Raise {A} e.

Global Instance result_ret : MRet result := λ A a, Ok a.
Global Instance result_bind : MBind result := λ A B f m,
  match m with
  | Ok a => f a
  | Raise e => Raise e
  end.

(** [try: body except: fallback] for a body without effects. *)
Definition try_except {A} (body : result A) (fallback : A) : A :=
  match body with
  | Ok a => a
  | Raise _ => fallback
  end.

(** ** The helper functions of the module *)

(** [get_value].  On a value that is not a dict the source asks
    [hasattr(obj, key)]; no value of [pyval] has an attribute called
    name, artists, url, songs or webpage_url, the only keys the program
    asks for, so that branch yields the default. *)
Definition get_value (obj : pyval) (key : str) (default : pyval) : pyval :=
  match obj with
  | PDict d =>
      match dict_get d key with
      | Some v => v
      | None => default
      end
  | _ => default
  end.

Definition format_list_as_string (obj : pyval) (separator : str) : str :=
  match obj with
  | PList l => str_join separator (py_str <$> filter (λ item, truthy item = true) l)
  | PStr s => s
  | _ => if truthy obj then py_str obj else lit "Unknown"
  end.

(** ** SpotifyPlaylistDownloader: the methods without effects *)

Definition is_valid_spotify_url (url : pyval) : bool :=
  let url_lower := py_lower (py_str url) in
  str_contains (lit "spotify.com/playlist/") url_lower
  || str_contains (lit "spotify.com/album/") url_lower.

Definition get_url_type (url : pyval) : str :=
  let url_lower := py_lower (py_str url) in
  if str_contains (lit "spotify.com/playlist/") url_lower then lit "playlist"
  else if str_contains (lit "spotify.com/album/") url_lower then lit "album"
  else lit "unknown".

(** [sub in v]: substring test on a string, membership in a list, key test
    on a dict, [TypeError] on the values that are not containers. *)
Definition py_in (sub : str) (v : pyval) : result bool :=
  match v with
  | PStr s => Ok (str_contains sub s)
  | PList l => Ok (existsb (λ item, eq_str item sub) l)
  | PDict d => Ok (match dict_get d sub with Some _ => true | None => false end)
  | _ => Raise TypeError
  end.

(** [v.split(sep)]: only a string has the method. *)
Definition py_split_method (v : pyval) (sep : str) : result (list str) :=
  match v with
  | PStr s => Ok (py_split sep s)
  | _ => Raise AttributeError
  end.

(** The body of the [try] of [extract_collection_name]. *)
Definition extract_collection_name_body (url : pyval) : result str :=
  let url_type := get_url_type url in
  is_playlist ← py_in (lit "playlist/") url;
  if is_playlist : bool then
    parts ← py_split_method url (lit "playlist/");
    let playlist_id := default [] (head (py_split (lit "?") (default [] (last parts)))) in
    mret (lit "Spotify_Playlist_" ++ take 8 playlist_id)
  else
    is_album ← py_in (lit "album/") url;
    if is_album : bool then
      parts ← py_split_method url (lit "album/");
      let album_id := default [] (head (py_split (lit "?") (default [] (last parts)))) in
      mret (lit "Spotify_Album_" ++ take 8 album_id)
    else
      mret (lit "Spotify_" ++ py_title url_type).

Definition extract_collection_name (url : pyval) : str :=
  try_except (extract_collection_name_body url) (lit "Downloaded_Collection").

(** [extract_track_details]; [track_id] is [id(track)].  No step of the
    body raises on a value of [pyval], so the handler that returns
    (Unknown, Unknown, empty) is never entered. *)
Definition extract_track_details (track_id : Z) (track : pyval)
  : pyval * str * pyval :=
  let '(title, artists, spotify_url) :=
    match track with
    | PDict _ =>
        (get_value track (lit "name") (PStr (lit "Unknown")),
         get_value track (lit "artists") (PList []),
         get_value track (lit "url") (PStr []))
    | PList (first_item :: _) =>
        match first_item with
        | PDict _ =>
            (get_value first_item (lit "name") (PStr (lit "Unknown")),
             get_value first_item (lit "artists") (PList []),
             get_value first_item (lit "url") (PStr []))
        | _ => (PStr (format_list_as_string track (lit ", ")), PList [], PStr [])
        end
    | _ => (PStr (lit "Unknown"), PList [], PStr [])
    end in
  let title :=
    if negb (truthy title) || eq_str title (lit "Unknown")
    then PStr (lit "Track_" ++ lit (pretty track_id))
    else title in
  let artist_str := format_list_as_string artists (lit ", ") in
  (title, artist_str, spotify_url).

(** ** The file system and the external tools

    A path is the list of its components below the working directory.  The
    world is the regular files with their text, the directories, and the
    command line of every process run so far, oldest first. *)

Definition path := list str.
Definition argv := list str.

Record world := {
  files : gmap path str;
  dirs : gset path;
  spawned : list argv;
}.

(** What the source takes from the operating system. *)
Class Environment := {
  (** the name [tempfile.NamedTemporaryFile] picks *)
  env_tmpname : world → path;
  (** one run of an external tool: the captured output, or the exception of
      [subprocess.run(..., check=True)], and the files and directories the
      tool leaves behind *)
  env_run : world → argv → result str * (gmap path str * gset path);
  (** [id] of the i-th track object of a collection *)
  env_id : nat → Z;
}.

Context `{E : Environment}.

(** [str(p)] for a [Path]. *)
Definition path_str (p : path) : str :=
  match p with
  | [] => lit "."
  | _ => str_join (lit "/") p
  end.

(** [p / name] for a name without a separator: an empty name and the name
    [.] add nothing.  The name [..] is kept as a component, as pathlib keeps
    it; the directories of the world are looked up by the path as written,
    so the model does not follow [..] to the parent directory. *)
Definition path_join (p : path) (name : str) : path :=
  if str_eqb name [] || str_eqb name (lit ".") then p else p ++ [name].

Definition parent (p : path) : path := take (length p - 1) p.

(** Computations with effects: they read and change the world and return a
    value or raise. *)
Definition M (A : Type) : Type := world → result A * world.

Global Instance M_ret : MRet M := λ A a w, (Ok a, w).
Global Instance M_bind : MBind M := λ A B f m w,
  match m w with
  | (Ok a, w') => f a w'
  | (Raise e, w') => (Raise e, w')
  end.

Definition lift {A} (r : result A) : M A := λ w, (r, w).

(** [try: body except Exception: handler] *)
Definition try_catch {A} (body : M A) (handler : M A) : M A := λ w,
  match body w with
  | (Ok a, w') => (Ok a, w')
  | (Raise _, w') => handler w'
  end.

(** [print(text)].  Standard output encodes as UTF-8, Python's default:
    it takes every text but one that holds a surrogate code point, for
    which [print] raises [UnicodeEncodeError].  A title or a name that
    [json.load] read from an escape such as a lone [\ud800] is such a text.
    What is printed is not part of the world, so a [print] of the source is
    modelled by the [py_print] of the data its f-string inserts: the fixed
    text around them, the counters, a kind of URL and the message of an
    exception hold no surrogate.  The URL itself is a line read from the
    console, decoded under the same encoding, and holds none either: the
    [print] of the URL at the start of [download_collection] cannot raise
    and has no [py_print]. *)
Definition is_surrogate (c : char) : bool := ((55296 <=? c) && (c <=? 57343))%N.

Definition printable (text : str) : bool := forallb (λ c, negb (is_surrogate c)) text.

Definition py_print (text : str) : M unit := λ w,
  if printable text then (Ok (), w) else (Raise UnicodeEncodeError, w).

(** [subprocess.run(cmd, capture_output=True, text=True, check=True)],
    giving the captured standard output. *)
Definition subprocess_run (cmd : argv) : M str := λ w,
  let '(r, (f, d)) := env_run w cmd in
  (r, {| files := f; dirs := d; spawned := spawned w ++ [cmd] |}).

(** [tempfile.NamedTemporaryFile(mode='w', suffix='.spotdl', delete=False)]
    followed by [close()]: an empty file under a new name. *)
Definition named_temporary_file : M path := λ w,
  let p := env_tmpname w in
  (Ok p, {| files := <[p := []]> (files w); dirs := dirs w; spawned := spawned w |}).

(** [json.loads]: the empty text is no JSON document. *)
Definition json_loads (text : str) : result pyval :=
  match text with
  | [] => Raise JSONDecodeError
  | _ => match json_decode text with
         | Some v => Ok v
         | None => Raise JSONDecodeError
         end
  end.

(** [with open(p, 'r', encoding='utf-8') as f: json.load(f)] *)
Definition open_json_load (p : path) : M pyval := λ w,
  match files w !! p with
  | None => (Raise FileNotFoundError, w)
  | Some text => (json_loads text, w)
  end.

(** [os.unlink(p)] *)
Definition os_unlink (p : path) : M unit := λ w,
  match files w !! p with
  | None => (Raise FileNotFoundError, w)
  | Some _ =>
      (Ok (), {| files := delete p (files w); dirs := dirs w; spawned := spawned w |})
  end.

Definition is_dir (w : world) (p : path) : bool :=
  bool_decide (p = [] ∨ p ∈ dirs w).

(** [p.mkdir(exist_ok=True)] *)
Definition mkdir_exist_ok (p : path) : M unit := λ w,
  if is_dir w p then (Ok (), w)
  else match files w !! p with
       | Some _ => (Raise FileExistsError, w)
       | None =>
           if is_dir w (parent p)
           then (Ok (), {| files := files w; dirs := {[p]} ∪ dirs w; spawned := spawned w |})
           else (Raise FileNotFoundError, w)
       end.

(** [with open(p, 'w', encoding='utf-8') as f: json.dump(v, f, indent=2,
    ensure_ascii=False)] *)
Definition open_json_dump (p : path) (v : pyval) : M unit := λ w,
  if is_dir w p then (Raise IsADirectoryError, w)
  else if is_dir w (parent p)
       then (Ok (), {| files := <[p := json_encode v]> (files w);
                       dirs := dirs w; spawned := spawned w |})
       else (Raise FileNotFoundError, w).

(** The names of the entries, files and directories, of a directory. *)
Definition child_of (folder p : path) : option str :=
  match reverse p with
  | name :: rest => if bool_decide (reverse rest = folder) then Some name else None
  | [] => None
  end.
Definition dir_entries (w : world) (folder : path) : list str :=
  omap (child_of folder) (elements (dom (files w) ∪ dirs w)).

(** Matching a name against a pattern made of plain characters and stars.
    The patterns of the program hold no other wildcard: a sanitized name
    has no question mark and no bracket. *)
Fixpoint fnmatch (pat name : str) : bool :=
  match pat with
  | [] => match name with [] => true | _ => false end
  | c :: pat' =>
      if char_eqb c 42%N then
        (fix any_suffix (name : str) : bool :=
           fnmatch pat' name
           || match name with
              | [] => false
              | _ :: name' => any_suffix name'
              end) name
      else match name with
           | c' :: name' => char_eqb c c' && fnmatch pat' name'
           | [] => false
           end
  end.

(** [list(folder.glob(pattern))], as the names that match. *)
Definition glob (folder : path) (pattern : str) : M (list str) := λ w,
  (Ok (filter (λ name, fnmatch pattern name = true) (dir_entries w folder)), w).

(** [len(v)] and the items [for x in v] goes through. *)
Definition py_len (v : pyval) : result nat :=
  match v with
  | PStr s => Ok (length s)
  | PList l => Ok (length l)
  | PDict d => Ok (length d)
  | _ => Raise TypeError
  end.
Definition py_iter (v : pyval) : result (list pyval) :=
  match v with
  | PStr s => Ok ((λ c, PStr [c]) <$> s)
  | PList l => Ok l
  | PDict d => Ok ((λ kv, PStr kv.1) <$> d)
  | _ => Raise TypeError
  end.

(** ** SpotifyPlaylistDownloader: the methods with effects *)

Record SpotifyPlaylistDownloader := { output_dir : path }.

(** The command line that asks [spotdl] for the metadata. *)
Definition save_command (spotify_url : pyval) (temp_file : path) : argv :=
  [lit "spotdl"; lit "save"; py_str spotify_url;
   lit "--save-file"; path_str temp_file].

(** The collection record the source builds around a bare list of
    tracks. *)
Definition converted_data (spotify_url : pyval) (data : pyval) : pyval :=
  let url_type := get_url_type spotify_url in
  let collection_name := extract_collection_name spotify_url in
  PDict [(lit "name", PStr collection_name);
         (lit "songs", data);
         (lit "url", spotify_url);
         (lit "type", PStr url_type)].

Definition fetch_playlist_data_body (spotify_url : pyval) : M pyval :=
  temp_file ← named_temporary_file;
  let cmd := save_command spotify_url temp_file in
  _ ← subprocess_run cmd;
  data ← open_json_load temp_file;
  _ ← os_unlink temp_file;
  match data with
  | PDict _ => mret data
  | PList _ => mret (converted_data spotify_url data)
  | _ => mret PNone
  end.

Definition fetch_playlist_data (spotify_url : pyval) : M pyval :=
  try_catch (fetch_playlist_data_body spotify_url) (mret PNone).

(** The f-string that names a track, artist first. *)
Definition current_track (artist_str : str) (title : pyval) : str :=
  artist_str ++ lit " - " ++ py_str title.

(** The two download functions announce the track inside their [try],
    before the tool runs. *)
Definition download_with_ytdlp_fallback
    (video_url : pyval) (output_path : str) (track_info : pyval * str * pyval)
  : M bool :=
  let '(title, artist_str, _) := track_info in
  let cmd := [lit "yt-dlp"; lit "--extract-audio";
              lit "--audio-format"; lit "mp3";
              lit "--audio-quality"; lit "320K";
              lit "--embed-metadata"; lit "--add-metadata";
              lit "--no-warnings";
              lit "--write-thumbnail"; lit "--embed-thumbnail";
              lit "-o"; output_path; py_str video_url] in
  try_catch
    (_ ← py_print (current_track artist_str title);
     _ ← subprocess_run cmd;
     mret true)
    (mret false).

Definition download_with_spotdl_primary
    (track_url : pyval) (output_dir : str) (track_info : pyval * str * pyval)
  : M bool :=
  let '(title, artist_str, _) := track_info in
  let cmd := [lit "spotdl"; lit "download"; py_str track_url;
              lit "--output"; output_dir;
              lit "--format"; lit "mp3";
              lit "--bitrate"; lit "320k";
              lit "--embed-metadata"; lit "--generate-lrc";
              lit "--save-cover"] in
  let cmd_fallback := [lit "spotdl"; lit "download"; py_str track_url;
                       lit "--output"; output_dir;
                       lit "--format"; lit "mp3";
                       lit "--bitrate"; lit "320k"] in
  try_catch
    (_ ← py_print (current_track artist_str title);
     _ ← subprocess_run cmd;
     mret true)
    (try_catch (_ ← subprocess_run cmd_fallback; mret true) (mret false)).

(** The loop of [search_youtube_track] over the lines of the output: the
    first line that is not empty and parses decides. *)
Fixpoint first_video_url (lines : list str) : pyval :=
  match lines with
  | [] => PNone
  | line :: lines' =>
      match line with
      | [] => first_video_url lines'
      | _ => match json_loads line with
             | Ok video => get_value video (lit "webpage_url") PNone
             | Raise _ => first_video_url lines'
             end
      end
  end.

Definition search_youtube_track (artist : str) (title : pyval) : M pyval :=
  let search_query := lit "ytsearch3:" ++ artist ++ lit " - " ++ py_str title in
  let cmd := [lit "yt-dlp"; lit "--quiet"; lit "--dump-json";
              lit "--playlist-end"; lit "3"; search_query] in
  try_catch
    (stdout ← subprocess_run cmd;
     mret (first_video_url (py_split [10%N] (py_strip stdout))))
    (mret PNone).

(** The outcome of one track. *)
Inductive outcome := Skipped | Downloaded | Failed.

(** The body of the [try] inside the loop of [download_collection]: the
    progress line is printed first, before the folder is looked at. *)
Definition process_track (folder : path) (i : nat) (track : pyval) : M outcome :=
  let '(title, artist_str, spotify_url) := extract_track_details (env_id i) track in
  _ ← py_print (current_track artist_str title);
  let filename := clean_filename (PStr (current_track artist_str title)) in
  let output_path := path_join folder (filename ++ lit ".%(ext)s") in
  existing_files ← glob folder (filename ++ lit ".*");
  match existing_files with
  | _ :: _ => mret Skipped
  | [] =>
      let track_info := (title, artist_str, spotify_url) in
      success ← (if truthy spotify_url
                 then download_with_spotdl_primary spotify_url (path_str folder) track_info
                 else mret false);
      success ← (if negb success
                 then youtube_url ← search_youtube_track artist_str title;
                      if truthy youtube_url
                      then download_with_ytdlp_fallback youtube_url
                             (path_str output_path) track_info
                      else mret success
                 else mret success);
      mret (if success : bool then Downloaded else Failed)
  end.

Record counts := { success_count : nat; failed_count : nat }.

Definition count (c : counts) (r : result outcome) : counts :=
  match r with
  | Ok Skipped | Ok Downloaded =>
      {| success_count := S (success_count c); failed_count := failed_count c |}
  | Ok Failed | Raise _ =>
      {| success_count := success_count c; failed_count := S (failed_count c) |}
  end.

(** [for i, track in enumerate(tracks, i): try: body except Exception: ...]:
    an exception of the body is counted and the loop goes on. *)
Fixpoint track_loop (body : nat → pyval → M outcome)
    (i : nat) (tracks : list pyval) (c : counts) (w : world) : counts * world :=
  match tracks with
  | [] => (c, w)
  | track :: tracks' =>
      let '(r, w') := body i track w in
      track_loop body (S i) tracks' (count c r) w'
  end.

(** The loop with the body of the source, from counters at zero; it ends
    without an exception whatever the body did. *)
Definition download_tracks (folder : path) (tracks : list pyval) : M counts := λ w,
  let '(c, w') :=
    track_loop (process_track folder) 1 tracks
      {| success_count := 0; failed_count := 0 |} w in
  (Ok c, w').

(** What a run reports: the returned flag, and the two counters (zero on
    the paths that return before the counters exist). *)
Record run := {
  overall : bool;
  tally : counts;
}.

Definition no_run : run :=
  {| overall := false; tally := {| success_count := 0; failed_count := 0 |} |}.

(** The name of the collection, and the folder its tracks go to. *)
Definition collection_name (url_type : str) (metadata : pyval) : pyval :=
  get_value metadata (lit "name") (PStr (lit "Unknown " ++ py_title url_type)).

Definition destination_folder
    (self : SpotifyPlaylistDownloader) (url_type : str) (metadata : pyval) : path :=
  path_join (output_dir self) (clean_filename (collection_name url_type metadata)).

(** The body of the outer [try] of [download_collection].  The name of the
    collection is printed as the metadata gave it, then the number of
    tracks; the closing lines print the counters and the folder, a
    sanitized name under the output directory of the program. *)
Definition download_collection_body
    (self : SpotifyPlaylistDownloader) (spotify_url : pyval) : M run :=
  let url_type := get_url_type spotify_url in
  metadata ← fetch_playlist_data spotify_url;
  if negb (truthy metadata) then mret no_run
  else
    let tracks := get_value metadata (lit "songs") (PList []) in
    if negb (truthy tracks) then mret no_run
    else
      _ ← py_print (py_str (collection_name url_type metadata));
      _ ← lift (py_len tracks);
      let folder := destination_folder self url_type metadata in
      _ ← mkdir_exist_ok folder;
      _ ← try_catch
            (open_json_dump (path_join folder (url_type ++ lit "_info.json")) metadata)
            (mret ());
      items ← lift (py_iter tracks);
      c ← download_tracks folder items;
      mret {| overall := bool_decide (0 < success_count c); tally := c |}.

Definition download_collection_run
    (self : SpotifyPlaylistDownloader) (spotify_url : pyval) : M run :=
  try_catch (download_collection_body self spotify_url) (mret no_run).

Definition download_collection
    (self : SpotifyPlaylistDownloader) (spotify_url : pyval) : world → bool * world :=
  λ w, let '(r, w') := download_collection_run self spotify_url w in
       (match r with Ok x => overall x | Raise _ => false end, w').

Definition download_playlist
    (self : SpotifyPlaylistDownloader) (playlist_url : pyval) : world → bool * world :=
  download_collection self playlist_url.

(** ** Notions used in the statements *)

(** The world once the temporary file exists. *)
Definition with_temp_file (w : world) : world := (named_temporary_file w).2.

(** A computation that returns a value from every world. *)
Definition total {A} (m : M A) : Prop := ∀ w, ∃ a w', m w = (Ok a, w').

Definition track_title (t : pyval * str * pyval) : pyval := t.1.1.
Definition track_artist (t : pyval * str * pyval) : str := t.1.2.
Definition track_url (t : pyval * str * pyval) : pyval := t.2.

(** The sanitized name, without extension, of the file of the i-th track. *)
Definition target_stem (i : nat) (track : pyval) : str :=
  clean_filename
    (PStr (current_track (track_artist (extract_track_details (env_id i) track))
                         (track_title (extract_track_details (env_id i) track)))).

(** The text of a track in its progress line. *)
Definition progress_line (i : nat) (track : pyval) : str :=
  current_track (track_artist (extract_track_details (env_id i) track))
                (track_title (extract_track_details (env_id i) track)).

(** The body of the loop after its progress line. *)
Definition after_progress_line (folder : path) (i : nat) (track : pyval) : M outcome :=
  let t := extract_track_details (env_id i) track in
  existing_files ← glob folder (target_stem i track ++ lit ".*");
  match existing_files with
  | _ :: _ => mret Skipped
  | [] =>
      success ← (if truthy (track_url t)
                 then download_with_spotdl_primary (track_url t) (path_str folder) t
                 else mret false);
      success ← (if negb success
                 then youtube_url ← search_youtube_track (track_artist t) (track_title t);
                      if truthy youtube_url
                      then download_with_ytdlp_fallback youtube_url
                             (path_str (path_join folder
                                (target_stem i track ++ lit ".%(ext)s"))) t
                      else mret success
                 else mret success);
      mret (if success : bool then Downloaded else Failed)
  end.

(** The values whose [str] is defined: no int in them has more digits than
    the interpreter converts. *)
Fixpoint within_digit_limit (v : pyval) : bool :=
  match v with
  | PInt z => (Z.abs z <? 10 ^ 4300)%Z
  | PList l => forallb within_digit_limit l
  | PDict d => forallb (λ kv, within_digit_limit kv.2) d
  | _ => true
  end.

(** The placeholder title of a track without a usable one. *)
Definition placeholder (track_id : Z) : pyval :=
  PStr (lit "Track_" ++ lit (pretty track_id)).

Definition succeeded (c : counts) : counts :=
  {| success_count := S (success_count c); failed_count := failed_count c |}.
Definition failed (c : counts) : counts :=
  {| success_count := success_count c; failed_count := S (failed_count c) |}.

Definition is_list (v : pyval) : bool :=
  match v with PList _ => true | _ => false end.
Definition is_string (v : pyval) : bool :=
  match v with PStr _ => true | _ => false end.

(** What the two substitutions do to one character. *)
Definition sanitize_char (c : char) : char :=
  let c := if is_reserved c then 95%N else c in
  if is_unsafe c then 95%N else c.

Definition starts_clean (s : str) : bool :=
  match s with
  | c :: _ => negb (is_space c)
  | [] => true
  end.

Definition ends_clean (s : str) : bool :=
  match last s with
  | Some c => negb (is_space c)
  | None => true
  end.

End Downloader.

(** ** The rest of the module

    The command lines of the download functions under a name, the
    installation of the tools, and the loop that reads URLs from the
    keyboard. *)

Section Session.
Context `{R : PyRuntime} `{E : Environment}.

(** The first command line of [download_with_spotdl_primary], and the one of
    its second attempt. *)
Definition primary_command (track_url : pyval) (output_dir : str) : argv :=
  [lit "spotdl"; lit "download"; py_str track_url;
   lit "--output"; output_dir;
   lit "--format"; lit "mp3";
   lit "--bitrate"; lit "320k";
   lit "--embed-metadata"; lit "--generate-lrc";
   lit "--save-cover"].
Definition reduced_command (track_url : pyval) (output_dir : str) : argv :=
  [lit "spotdl"; lit "download"; py_str track_url;
   lit "--output"; output_dir;
   lit "--format"; lit "mp3";
   lit "--bitrate"; lit "320k"].

(** The command lines of [search_youtube_track] and of
    [download_with_ytdlp_fallback]. *)
Definition search_command (artist : str) (title : pyval) : argv :=
  [lit "yt-dlp"; lit "--quiet"; lit "--dump-json";
   lit "--playlist-end"; lit "3";
   lit "ytsearch3:" ++ artist ++ lit " - " ++ py_str title].
Definition fallback_command (video_url : pyval) (output_path : str) : argv :=
  [lit "yt-dlp"; lit "--extract-audio";
   lit "--audio-format"; lit "mp3";
   lit "--audio-quality"; lit "320K";
   lit "--embed-metadata"; lit "--add-metadata";
   lit "--no-warnings";
   lit "--write-thumbnail"; lit "--embed-thumbnail";
   lit "-o"; output_path; py_str video_url].

(** [install_dependencies]: the output of the two runs is not used. *)
Definition install_dependencies : M bool :=
  try_catch
    (_ ← subprocess_run [lit "pip"; lit "install"; lit "spotdl"; lit "yt-dlp"];
     _ ← subprocess_run [lit "spotdl"; lit "--download-ffmpeg"];
     mret true)
    (mret false).

(** The words that end [interactive_playlist_download], the empty line
    among them; the caller passes the line already trimmed. *)
Definition is_sentinel (user_input : str) : bool :=
  existsb (str_eqb (py_lower user_input))
    [lit "done"; lit "exit"; lit "quit"; []].

(** How the loop of [interactive_playlist_download] ends: at a sentinel, or
    with the [EOFError] of [input()] when the lines run out, which no
    handler of the function catches. *)
Inductive session_end := Finished | EndOfInput.

(** [interactive_playlist_download] on the lines the user types, one per
    call of [input()]. *)
Fixpoint interactive_playlist_download
    (self : SpotifyPlaylistDownloader) (lines : list str) (w : world)
  : session_end * world :=
  match lines with
  | [] => (EndOfInput, w)
  | line :: lines' =>
      let user_input := py_strip line in
      if is_sentinel user_input then (Finished, w)
      else if negb (is_valid_spotify_url (PStr user_input))
      then interactive_playlist_download self lines' w
      else
        let '(_, w') := download_collection self (PStr user_input) w in
        interactive_playlist_download self lines' w'
  end.

(** *** Notions used in the statements *)

Definition is_dict (v : pyval) : bool :=
  match v with PDict _ => true | _ => false end.

(** A character that neither substitution of [clean_filename] replaces. *)
Definition is_safe (c : char) : bool :=
  negb (is_reserved c) && negb (is_unsafe c).

(** What [fetch_playlist_data] returns for each shape of the parsed root. *)
Definition normalized (spotify_url : pyval) (data : pyval) : pyval :=
  match data with
  | PDict _ => data
  | PList _ => converted_data spotify_url data
  | _ => PNone
  end.

(** The world a run of a tool leaves behind. *)
Definition after_run (w : world) (cmd : argv)
    (left : gmap path str * gset path) : world :=
  {| files := left.1; dirs := left.2; spawned := spawned w ++ [cmd] |}.

(** A line the loop of [search_youtube_track] passes over. *)
Definition skipped_line (line : str) : Prop :=
  line = [] ∨ ∃ e, json_loads line = Raise e.

(** A line that neither ends the session nor starts a download. *)
Definition ignored_line (line : str) : bool :=
  negb (is_sentinel (py_strip line))
  && negb (is_valid_spotify_url (PStr (py_strip line))).

End Session.

(** ** A runtime and environments to run the model on

    [toy_runtime] knows ASCII only and decodes four JSON documents;
    [scripted] is an operating system where [spotdl save] writes a given
    text to the save file and every other run has a fixed result. *)

Definition toy_json_decode (text : str) : option pyval :=
  if str_eqb text (lit "[]") then Some (PList [])
  else if str_eqb text (lit "[1, 2]") then Some (PList [PInt 1; PInt 2])
  else if str_eqb text (lit "{}") then Some (PDict [])
  else if str_eqb text (lit "7") then Some (PInt 7)
  else None.

Definition toy_runtime : PyRuntime := {|
  unicode_isalnum := λ _, false;
  unicode_lower := λ s, s;
  unicode_title := λ s, s;
  py_repr := λ _, lit "<repr>";
  json_decode := toy_json_decode;
  json_encode := λ _, lit "<json>"
|}.

Definition toy_tmpname : path := [lit "tmp"; lit "tmpk3x9.spotdl"].

Definition scripted (saved : option str) (other : result str) : Environment := {|
  env_tmpname := λ _, toy_tmpname;
  env_run := λ w cmd,
    match cmd with
    | _ :: verb :: _ =>
        if str_eqb verb (lit "save") then
          match saved with
          | Some text => (Ok [], (<[toy_tmpname := text]> (files w), dirs w))
          | None => (Ok [], (files w, dirs w))
          end
        else (other, (files w, dirs w))
    | _ => (other, (files w, dirs w))
    end;
  env_id := λ i, Z.of_nat i
|}.

Definition empty_world : world :=
  {| files := ∅; dirs := {[ [lit "Downloads"] ]}; spawned := [] |}.

Definition downloader : SpotifyPlaylistDownloader :=
  {| output_dir := [lit "Downloads"] |}.

(** The track record of the specification's example. *)
Definition song_record : pyval :=
  PDict [(lit "name", PStr (lit "Song"));
         (lit "artists", PList [PStr (lit "A"); PStr (lit "B")]);
         (lit "url", PStr (lit "spotify:track:1"))].

(** A name of 201 characters whose 200th is a space. *)
Definition long_name : str := replicate 199 97%N ++ lit " b".

(** A collection record with an empty name, and a track record with the
    number zero where the artists belong. *)
Definition unnamed_collection : pyval :=
  PDict [(lit "name", PStr []); (lit "songs", PList [song_record])].
Definition numbered_artist : pyval :=
  PDict [(lit "name", PStr (lit "Song")); (lit "artists", PInt 0)].
Definition no_artists : list (str * pyval) :=
  [(lit "name", PStr (lit "Song")); (lit "artists", PList [])].

(** A collection folder that already holds the file of [song_record]. *)
Definition album_folder : path := [lit "Downloads"; lit "Album"].
Definition resumed_world : world :=
  {| files := {[ album_folder ++ [lit "A_ B - Song.mp3"] := [] ]};
     dirs := {[ [lit "Downloads"]; album_folder ]};
     spawned := [] |}.

(** A track record whose title is one surrogate code point, as [json.load]
    reads it from an escape, and a collection folder that holds a file under
    the sanitized name of that track. *)
Definition surrogate_record : pyval :=
  PDict [(lit "name", PStr [55296%N]);
         (lit "artists", PList [PStr (lit "A")])].
Definition surrogate_world : world :=
  {| files := {[ album_folder ++ [lit "A - _.mp3"] := [] ]};
     dirs := {[ [lit "Downloads"]; album_folder ]};
     spawned := [] |}.

(** An operating system where [spotdl save] writes a list of two tracks,
    one where it writes an empty list, one where it writes nothing, each
    with tools that fail otherwise. *)
Definition two_tracks_env : Environment :=
  scripted (Some (lit "[1, 2]")) (Raise CalledProcessError).
Definition silent_env : Environment :=
  scripted None (Raise CalledProcessError).

(** An operating system where no tool can be run. *)
Definition failing_env : Environment := {|
  env_tmpname := λ _, toy_tmpname;
  env_run := λ w _, (Raise CalledProcessError, (files w, dirs w));
  env_id := λ i, Z.of_nat i
|}.

Definition playlist_url : pyval :=
  PStr (lit "https://open.spotify.com/playlist/abc12345?si=xyz").

(** ** More inputs to run the model on *)

(** One line of the output of a search, as JSON text (34 is the double
    quote) and as the record it denotes; a runtime that decodes it; and an
    operating system where every run prints a warning, an empty line, that
    line and the number 7. *)
Definition video_text : str :=
  lit "{" ++ [34%N] ++ lit "webpage_url" ++ [34%N] ++ lit ": "
  ++ [34%N] ++ lit "https://youtu.be/x" ++ [34%N] ++ lit "}".
Definition video_record : pyval :=
  PDict [(lit "webpage_url", PStr (lit "https://youtu.be/x"))].

Definition video_runtime : PyRuntime := {|
  unicode_isalnum := λ _, false;
  unicode_lower := λ s, s;
  unicode_title := λ s, s;
  py_repr := λ _, lit "<repr>";
  json_decode := λ text,
    if str_eqb text video_text then Some video_record else toy_json_decode text;
  json_encode := λ _, lit "<json>"
|}.

Definition search_output : str :=
  lit "WARNING" ++ [10%N; 10%N] ++ video_text ++ [10%N] ++ lit "7" ++ [10%N].

Definition search_env : Environment := {|
  env_tmpname := λ _, toy_tmpname;
  env_run := λ w _, (Ok search_output, (files w, dirs w));
  env_id := λ i, Z.of_nat i
|}.

(** An operating system where every run succeeds and prints nothing, and
    one where [spotdl save] writes an empty record. *)
Definition online_env : Environment := {|
  env_tmpname := λ _, toy_tmpname;
  env_run := λ w _, (Ok [], (files w, dirs w));
  env_id := λ i, Z.of_nat i
|}.
Definition empty_record_env : Environment :=
  scripted (Some (lit "{}")) (Raise CalledProcessError).

(** A world where a regular file has the name of the folder of the
    collection. *)
Definition blocked_world : world :=
  {| files := {[ [lit "Downloads"; lit "Spotify_Playlist_abc12345"] := [] ]};
     dirs := {[ [lit "Downloads"] ]};
     spawned := [] |}.

(** Two URLs that differ in case, and the lines of a session. *)
Definition shouted_url : str := lit "HTTPS://OPEN.SPOTIFY.COM/PLAYLIST/ABC".
Definition whispered_url : str := lit "https://open.spotify.com/playlist/abc".
Definition idle_lines : list str := [lit "hello"; lit "  http://example.com/x "].


(** * Properties *)

Section Properties.
Context `{R : PyRuntime}.

(** ** Sanitizing names *)

Lemma re_sub_class_fmap cls u s :
  re_sub_class cls [u] s = (λ c, if cls c then u else c) <$> s.
Proof.
  unfold re_sub_class. induction s as [|c s IH]; [done|].
  rewrite !fmap_cons. cbn [mjoin list_join]. fold (@mjoin list _ char).
  destruct (cls c); cbn; f_equal; apply IH.
Qed.

Lemma clean_filename_unfold v :
  clean_filename v = take 200 (py_strip (sanitize_char <$> py_str v)).
Proof.
  unfold clean_filename. change (lit "_") with [95%N].
  rewrite !re_sub_class_fmap, <- list_fmap_compose. done.
Qed.

Lemma is_unsafe_underscore : is_unsafe 95%N = false.
Proof. unfold is_unsafe. by rewrite !orb_true_r. Qed.

Lemma sanitize_char_fixed c : sanitize_char (sanitize_char c) = sanitize_char c.
Proof.
  unfold sanitize_char.
  destruct (is_reserved c) eqn:Hr; [|destruct (is_unsafe c) eqn:Hu];
    rewrite ?is_unsafe_underscore; change (is_reserved 95%N) with false;
    cbv iota; by rewrite ?is_unsafe_underscore, ?Hr, ?Hu.
Qed.

Lemma sanitize_char_space c : is_space (sanitize_char c) = is_space c.
Proof.
  unfold sanitize_char.
  destruct (is_space c) eqn:Hs.
  - assert (is_reserved c = false) as ->.
    { unfold is_space, is_reserved in *.
      repeat match goal with
             | |- context [(c =? ?k)%N] => destruct (N.eqb_spec c k); [subst; done|]
             end. done. }
    assert (is_unsafe c = false) as ->; [|done].
    unfold is_unsafe. by rewrite Hs, orb_true_r.
  - destruct (is_reserved c); [by destruct (is_unsafe 95%N)|].
    by destruct (is_unsafe c).
Qed.

(** ** Trimming *)

Lemma lstrip_starts_clean s : starts_clean (lstrip s) = true.
Proof.
  induction s as [|c s IH]; [done|]. cbn.
  destruct (is_space c) eqn:Hc; [done|]. cbn. by rewrite Hc.
Qed.

Lemma lstrip_id s : starts_clean s = true → lstrip s = s.
Proof. destruct s as [|c s]; [done|]. cbn. by destruct (is_space c). Qed.

Lemma lstrip_length s : length (lstrip s) ≤ length s.
Proof.
  induction s as [|c s IH]; [done|]. cbn.
  destruct (is_space c); cbn; lia.
Qed.

Lemma rstrip_snoc s c :
  rstrip (s ++ [c]) = if is_space c then rstrip s else s ++ [c].
Proof.
  unfold rstrip. rewrite reverse_snoc. cbn [lstrip].
  destruct (is_space c); [done|].
  by rewrite reverse_cons, reverse_involutive.
Qed.

Lemma ends_clean_snoc s c : ends_clean (s ++ [c]) = negb (is_space c).
Proof. unfold ends_clean. by rewrite last_snoc. Qed.

Lemma rstrip_ends_clean s : ends_clean (rstrip s) = true.
Proof.
  induction s as [|c s IH] using rev_ind; [done|].
  rewrite rstrip_snoc. destruct (is_space c) eqn:Hc; [done|].
  by rewrite ends_clean_snoc, Hc.
Qed.

Lemma rstrip_id s : ends_clean s = true → rstrip s = s.
Proof.
  destruct s as [|c s _] using rev_ind; [done|].
  rewrite ends_clean_snoc, rstrip_snoc. by destruct (is_space c).
Qed.

Lemma rstrip_length s : length (rstrip s) ≤ length s.
Proof.
  induction s as [|c s IH] using rev_ind; [done|].
  rewrite rstrip_snoc. destruct (is_space c); [|done].
  rewrite length_app. cbn. lia.
Qed.

Lemma rstrip_shorter s : ends_clean s = false → length (rstrip s) < length s.
Proof.
  destruct s as [|c s _] using rev_ind; [done|].
  rewrite ends_clean_snoc, rstrip_snoc.
  destruct (is_space c); [|done]. intros _.
  pose proof (rstrip_length s). rewrite length_app. cbn. lia.
Qed.

Lemma rstrip_starts_clean s : starts_clean s = true → starts_clean (rstrip s) = true.
Proof.
  induction s as [|c s IH] using rev_ind; [done|].
  rewrite rstrip_snoc. destruct (is_space c); [|done].
  intros H. apply IH. by destruct s.
Qed.

Lemma py_strip_starts_clean s : starts_clean (py_strip s) = true.
Proof. apply rstrip_starts_clean, lstrip_starts_clean. Qed.

Lemma py_strip_ends_clean s : ends_clean (py_strip s) = true.
Proof. apply rstrip_ends_clean. Qed.

Lemma py_strip_id s :
  starts_clean s = true → ends_clean s = true → py_strip s = s.
Proof. intros H1 H2. unfold py_strip. rewrite lstrip_id by done. by apply rstrip_id. Qed.

Lemma take_starts_clean n s : starts_clean s = true → starts_clean (take n s) = true.
Proof. by destruct n, s. Qed.

Lemma clean_filename_starts_clean v : starts_clean (clean_filename v) = true.
Proof. rewrite clean_filename_unfold. apply take_starts_clean, py_strip_starts_clean. Qed.

Lemma lstrip_fmap (f : char → char) s :
  (∀ c, is_space (f c) = is_space c) → lstrip (f <$> s) = f <$> lstrip s.
Proof.
  intros Hf. induction s as [|c s IH]; [done|].
  rewrite fmap_cons. cbn [lstrip]. rewrite Hf.
  destruct (is_space c); [exact IH|done].
Qed.

Lemma py_strip_fmap (f : char → char) s :
  (∀ c, is_space (f c) = is_space c) → py_strip (f <$> s) = f <$> py_strip s.
Proof.
  intros Hf. unfold py_strip, rstrip.
  by rewrite lstrip_fmap, <- fmap_reverse, lstrip_fmap, fmap_reverse.
Qed.

(** A sanitized name is left as it is by the two substitutions. *)
Lemma clean_filename_sanitized v :
  sanitize_char <$> clean_filename v = clean_filename v.
Proof.
  rewrite clean_filename_unfold, fmap_take.
  rewrite <- py_strip_fmap by apply sanitize_char_space.
  rewrite <- list_fmap_compose.
  do 2 f_equal. apply list_fmap_ext. intros _ c _. apply sanitize_char_fixed.
Qed.

Lemma clean_filename_length v : length (clean_filename v) ≤ 200.
Proof. rewrite clean_filename_unfold, length_take. lia. Qed.

(** A second pass only trims the right end of the first pass's result. *)
Lemma clean_filename_twice v :
  clean_filename (PStr (clean_filename v)) = take 200 (rstrip (clean_filename v)).
Proof.
  rewrite (clean_filename_unfold (PStr _)). cbn [py_str].
  rewrite clean_filename_sanitized. unfold py_strip.
  by rewrite lstrip_id by apply clean_filename_starts_clean.
Qed.

Lemma clean_filename_fixed_iff v :
  clean_filename (PStr (clean_filename v)) = clean_filename v
  ↔ ends_clean (clean_filename v) = true.
Proof.
  rewrite clean_filename_twice.
  pose proof (clean_filename_length v) as Hlen.
  set (t := clean_filename v) in *.
  split.
  - intros Heq. destruct (ends_clean t) eqn:Hend; [done|].
    apply rstrip_shorter in Hend.
    apply (f_equal length) in Heq. rewrite length_take in Heq. lia.
  - intros Hend. rewrite rstrip_id by done. apply take_ge. lia.
Qed.

(** C3 (as amended): the sanitized name has at most 200 characters, and
    sanitizing it again returns it unchanged exactly when it does not end in
    white space, which the cut at 200 characters can leave behind; it is
    unchanged in particular when the trimmed name had at most 200 characters
    before the cut. *)
Theorem clean_filename_idempotent_iff (s : str) :
  length (clean_filename (PStr s)) ≤ 200
  ∧ (clean_filename (PStr (clean_filename (PStr s))) = clean_filename (PStr s)
     ↔ ends_clean (clean_filename (PStr s)) = true)
  ∧ (length (py_strip (sanitize_char <$> s)) ≤ 200 →
     clean_filename (PStr (clean_filename (PStr s))) = clean_filename (PStr s)).
Proof.
  split_and!; [apply clean_filename_length|apply clean_filename_fixed_iff|].
  intros Hshort. apply clean_filename_fixed_iff.
  rewrite clean_filename_unfold. cbn [py_str].
  rewrite take_ge by done. apply py_strip_ends_clean.
Qed.

(** ** Searching and splitting *)

Lemma char_eqb_eq a b : char_eqb a b = true ↔ a = b.
Proof. apply N.eqb_eq. Qed.

Lemma str_eqb_eq s t : str_eqb s t = true ↔ s = t.
Proof.
  revert t. induction s as [|a s IH]; intros [|b t]; cbn; [done..|].
  rewrite andb_true_iff, char_eqb_eq, IH. split; [by intros [-> ->]|by intros [= -> ->]].
Qed.

Lemma starts_with_spec sub s : starts_with sub s = true ↔ ∃ k, s = sub ++ k.
Proof.
  revert s. induction sub as [|a sub IH]; intros s; cbn.
  - split; [by exists s|done].
  - destruct s as [|b s]; [split; [done|by intros [? ?]]|].
    rewrite andb_true_iff, char_eqb_eq, IH. split.
    + intros [-> [k ->]]. by exists k.
    + intros [k [= -> ->]]. eauto.
Qed.

Lemma str_find_eq sub s :
  str_find sub s =
    if starts_with sub s then Some ([], drop (length sub) s)
    else match s with
         | [] => None
         | c :: s' =>
             match str_find sub s' with
             | Some (before, after) => Some (c :: before, after)
             | None => None
             end
         end.
Proof. by destruct s. Qed.

Lemma str_find_Some sub s b a : str_find sub s = Some (b, a) → s = b ++ sub ++ a.
Proof.
  revert b. induction s as [|c s IH]; intros b; rewrite str_find_eq.
  - destruct (starts_with sub []) eqn:Hs; [|done].
    apply starts_with_spec in Hs as [k Hk]. intros [= <- <-].
    symmetry in Hk. by apply app_eq_nil in Hk as [-> ->].
  - destruct (starts_with sub (c :: s)) eqn:Hs.
    + apply starts_with_spec in Hs as [k Hk]. intros [= <- <-].
      by rewrite Hk, drop_app_length.
    + destruct (str_find sub s) as [[b' a']|] eqn:Hf; [|done].
      intros [= <- <-]. cbn. f_equal. by apply IH.
Qed.

Lemma str_find_occurs sub b a : is_Some (str_find sub (b ++ sub ++ a)).
Proof.
  induction b as [|c b IH]; rewrite str_find_eq.
  - assert (starts_with sub ([] ++ sub ++ a) = true) as ->; [|done].
    apply starts_with_spec. by exists a.
  - destruct (starts_with sub ((c :: b) ++ sub ++ a)); [done|].
    cbn. destruct IH as [[b' a'] ->]. done.
Qed.

Lemma str_contains_occurs sub b a : str_contains sub (b ++ sub ++ a) = true.
Proof.
  unfold str_contains. by destruct (str_find_occurs sub b a) as [? ->].
Qed.

Lemma str_contains_true sub s :
  str_contains sub s = true ↔ ∃ b a, s = b ++ sub ++ a.
Proof.
  split.
  - unfold str_contains. destruct (str_find sub s) as [[b a]|] eqn:Hf; [|done].
    intros _. exists b, a. by apply str_find_Some.
  - intros (b & a & ->). apply str_contains_occurs.
Qed.

(** The first occurrence of a separator whose first character does not come
    back in it: it ends before any later occurrence starts. *)
Lemma str_find_unbordered c tl pre rest :
  c ∉ tl →
  ∃ b a, str_find (c :: tl) (pre ++ (c :: tl) ++ rest) = Some (b, a)
         ∧ ((b = pre ∧ a = rest)
            ∨ ∃ pre', a = pre' ++ (c :: tl) ++ rest ∧ length pre' < length pre).
Proof.
  intros Hc. induction pre as [|x pre IH]; rewrite str_find_eq.
  - assert (starts_with (c :: tl) ([] ++ (c :: tl) ++ rest) = true) as ->.
    { apply starts_with_spec. by exists rest. }
    eexists _, _. split; [done|]. left. split; [done|].
    by rewrite app_nil_l, drop_app_length.
  - destruct (starts_with (c :: tl) ((x :: pre) ++ (c :: tl) ++ rest)) eqn:Hs.
    + eexists _, _. split; [done|]. right.
      apply starts_with_spec in Hs as [k Hk].
      assert (length (c :: tl) ≤ length (x :: pre)) as Hle.
      { destruct (decide (length (c :: tl) ≤ length (x :: pre))) as [|Hn]; [done|].
        exfalso. apply Hc.
        assert (((x :: pre) ++ (c :: tl) ++ rest) !! length (x :: pre) = Some c) as Hi.
        { rewrite lookup_app_r by done. by rewrite Nat.sub_diag. }
        rewrite Hk, lookup_app_l in Hi by lia.
        cbn in Hi. by apply list_elem_of_lookup_2 in Hi. }
      exists (drop (length (c :: tl)) (x :: pre)). split.
      * by rewrite drop_app_le.
      * rewrite length_drop. cbn. lia.
    + change ((x :: pre) ++ (c :: tl) ++ rest) with (x :: (pre ++ (c :: tl) ++ rest)).
      cbv iota. destruct IH as (b & a & -> & Hba).
      eexists _, _. split; [done|].
      destruct Hba as [[-> ->]|(pre' & -> & Hlt)]; [by left|].
      right. exists pre'. split; [done|]. cbn. lia.
Qed.

Lemma split_upto_absent n sep s :
  str_contains sep s = false → split_upto n sep s = [s].
Proof.
  unfold str_contains. destruct n; [done|]. cbn.
  by destruct (str_find sep s) as [[??]|].
Qed.

(** The last piece of a split is the text after the last occurrence. *)
Lemma split_upto_last c tl n pre rest :
  c ∉ tl →
  str_contains (c :: tl) rest = false →
  length (pre ++ (c :: tl) ++ rest) ≤ n →
  last (split_upto n (c :: tl) (pre ++ (c :: tl) ++ rest)) = Some rest.
Proof.
  intros Hc Hrest. revert pre. induction n as [|n IH]; intros pre Hn.
  { rewrite !length_app in Hn. cbn in Hn. lia. }
  cbn [split_upto].
  destruct (str_find_unbordered c tl pre rest Hc) as (b & a & -> & Hba).
  destruct Hba as [[-> ->]|(pre' & -> & Hlt)].
  - by rewrite split_upto_absent.
  - rewrite last_cons, IH; [done|].
    rewrite !length_app in *. cbn in *. lia.
Qed.

Lemma py_split_last c tl pre rest :
  c ∉ tl →
  str_contains (c :: tl) rest = false →
  last (py_split (c :: tl) (pre ++ (c :: tl) ++ rest)) = Some rest.
Proof. intros. by apply split_upto_last. Qed.

Lemma str_find_char c seg tail :
  c ∉ seg → str_find [c] (seg ++ c :: tail) = Some (seg, tail).
Proof.
  intros Hc. induction seg as [|x seg IH]; rewrite str_find_eq; cbn.
  - by rewrite (proj2 (char_eqb_eq c c)).
  - destruct (char_eqb c x) eqn:Hx.
    + apply char_eqb_eq in Hx as ->. by apply not_elem_of_cons in Hc as [? _].
    + cbn. rewrite IH; [done|]. by apply not_elem_of_cons in Hc as [_ ?].
Qed.

Lemma str_find_char_absent c seg : c ∉ seg → str_find [c] seg = None.
Proof.
  intros Hc. destruct (str_find [c] seg) as [[b a]|] eqn:Hf; [|done].
  apply str_find_Some in Hf. subst seg. exfalso. apply Hc.
  apply elem_of_app. right. apply elem_of_app. left. by apply list_elem_of_singleton.
Qed.

(** The first piece of a split at a character is the text before its first
    occurrence. *)
Lemma py_split_head c seg tail :
  c ∉ seg → tail = [] ∨ head tail = Some c →
  head (py_split [c] (seg ++ tail)) = Some seg.
Proof.
  intros Hc [->|Ht].
  - rewrite app_nil_r. unfold py_split.
    destruct seg as [|x seg]; [done|]. cbn [length split_upto].
    by rewrite str_find_char_absent.
  - destruct tail as [|c' tail]; [done|]. injection Ht as ->.
    unfold py_split. rewrite length_app. cbn [length].
    rewrite Nat.add_succ_r. cbn [split_upto].
    by rewrite str_find_char.
Qed.

(** Every string that contains a separator has a last occurrence of it. *)
Lemma last_occurrence sep s :
  sep ≠ [] → str_contains sep s = true →
  ∃ pre rest, s = pre ++ sep ++ rest ∧ str_contains sep rest = false.
Proof.
  intros Hsep. remember (length s) as n eqn:Hn. revert s Hn.
  induction n as [n IH] using lt_wf_ind. intros s -> Hs.
  apply str_contains_true in Hs as (b & a & ->).
  destruct (str_contains sep a) eqn:Ha.
  - destruct (IH (length a)) with (s := a) as (pre & rest & -> & Hrest); [|done..|].
    { rewrite !length_app. destruct sep; [done|]. cbn. lia. }
    exists (b ++ sep ++ pre), rest. split; [|done]. by rewrite <- !app_assoc.
  - by exists b, a.
Qed.

(** Every string splits at its first question mark, if it has one. *)
Lemma first_segment (c : char) s :
  ∃ seg tail, s = seg ++ tail ∧ (c ∉ seg) ∧ (tail = [] ∨ head tail = Some c).
Proof.
  induction s as [|x s (seg & tail & -> & Hseg & Htail)].
  - exists [], []. split_and!; [done|apply not_elem_of_nil|by left].
  - destruct (decide (x = c)) as [->|Hx].
    + exists [], (c :: seg ++ tail). split_and!; [done|apply not_elem_of_nil|by right].
    + exists (x :: seg), tail. split_and!; [done| |done].
      apply not_elem_of_cons. split; [congruence|done].
Qed.

(** The identifier [extract_collection_name] cuts out of a URL: the text
    after the last marker, up to the first question mark. *)
Lemma collection_id c tl pre seg tail :
  c ∉ tl →
  str_contains (c :: tl) (seg ++ tail) = false →
  63%N ∉ seg → tail = [] ∨ head tail = Some 63%N →
  default [] (head (py_split (lit "?")
    (default [] (last (py_split (c :: tl) (pre ++ (c :: tl) ++ seg ++ tail)))))) = seg.
Proof.
  intros Hc Hrest Hseg Htail.
  rewrite py_split_last by done. cbn [from_option id].
  change (lit "?") with [63%N]. by rewrite py_split_head.
Qed.

Lemma get_url_type_cases url :
  get_url_type url = lit "playlist" ∨ get_url_type url = lit "album"
  ∨ get_url_type url = lit "unknown".
Proof. unfold get_url_type. repeat case_match; auto. Qed.

(** C5: the name derived from a URL.  With a playlist marker it is
    Spotify_Playlist_ followed by the first 8 characters of the text between
    the last marker and the next question mark, and every URL with a marker
    splits that way; with an album marker and no playlist marker it is
    Spotify_Album_ and those characters; with neither marker it is Spotify_
    and the type in title case; when the body raises, as it does on None, it
    is Downloaded_Collection; the URL of the specification gives
    Spotify_Playlist_abc12345. *)
Theorem extract_collection_name_spec :
  (∀ pre seg tail,
     str_contains (lit "playlist/") (seg ++ tail) = false →
     63%N ∉ seg → tail = [] ∨ head tail = Some 63%N →
     extract_collection_name (PStr (pre ++ lit "playlist/" ++ seg ++ tail))
     = lit "Spotify_Playlist_" ++ take 8 seg)
  ∧ (∀ url, str_contains (lit "playlist/") url = true →
       ∃ pre seg tail, url = pre ++ lit "playlist/" ++ seg ++ tail
         ∧ str_contains (lit "playlist/") (seg ++ tail) = false
         ∧ (63%N ∉ seg) ∧ (tail = [] ∨ head tail = Some 63%N))
  ∧ (∀ pre seg tail,
       str_contains (lit "playlist/") (pre ++ lit "album/" ++ seg ++ tail) = false →
       str_contains (lit "album/") (seg ++ tail) = false →
       63%N ∉ seg → tail = [] ∨ head tail = Some 63%N →
       extract_collection_name (PStr (pre ++ lit "album/" ++ seg ++ tail))
       = lit "Spotify_Album_" ++ take 8 seg)
  ∧ (∀ url, str_contains (lit "album/") url = true →
       ∃ pre seg tail, url = pre ++ lit "album/" ++ seg ++ tail
         ∧ str_contains (lit "album/") (seg ++ tail) = false
         ∧ (63%N ∉ seg) ∧ (tail = [] ∨ head tail = Some 63%N))
  ∧ (∀ url,
       str_contains (lit "playlist/") url = false →
       str_contains (lit "album/") url = false →
       extract_collection_name (PStr url)
       = lit "Spotify_" ++ py_title (get_url_type (PStr url))
       ∧ (extract_collection_name (PStr url) = lit "Spotify_Playlist"
          ∨ extract_collection_name (PStr url) = lit "Spotify_Album"
          ∨ extract_collection_name (PStr url) = lit "Spotify_Unknown"))
  ∧ (∀ url e,
       extract_collection_name_body url = Raise e →
       extract_collection_name url = lit "Downloaded_Collection")
  ∧ extract_collection_name PNone = lit "Downloaded_Collection"
  ∧ extract_collection_name
      (PStr (lit "https://open.spotify.com/playlist/abc12345?si=xyz"))
    = lit "Spotify_Playlist_abc12345".
Proof.
  assert (∀ sep url, sep ≠ [] → str_contains sep url = true →
            ∃ pre seg tail, url = pre ++ sep ++ seg ++ tail
              ∧ str_contains sep (seg ++ tail) = false
              ∧ (63%N ∉ seg) ∧ (tail = [] ∨ head tail = Some 63%N)) as Hcover.
  { intros sep url Hsep Hurl.
    destruct (last_occurrence sep url Hsep Hurl) as (pre & rest & -> & Hrest).
    destruct (first_segment 63%N rest) as (seg & tail & -> & Hseg & Htail).
    by exists pre, seg, tail. }
  split_and!.
  - intros pre seg tail Hrest Hseg Htail.
    unfold extract_collection_name, extract_collection_name_body.
    cbn [py_in py_split_method mbind result_bind].
    rewrite str_contains_occurs. cbn [mret result_ret try_except].
    change (lit "playlist/") with (112%N :: lit "laylist/") in *.
    rewrite collection_id; [done| |done..]. apply (bool_decide_unpack _). by vm_compute.
  - intros url Hurl. by apply Hcover.
  - intros pre seg tail Hno Hrest Hseg Htail.
    unfold extract_collection_name, extract_collection_name_body.
    cbn [py_in py_split_method mbind result_bind].
    rewrite Hno, str_contains_occurs. cbn [mret result_ret try_except].
    change (lit "album/") with (97%N :: lit "lbum/") in *.
    rewrite collection_id; [done| |done..]. apply (bool_decide_unpack _). by vm_compute.
  - intros url Hurl. by apply Hcover.
  - intros url Hp Ha.
    unfold extract_collection_name, extract_collection_name_body.
    cbn [py_in mbind result_bind]. rewrite Hp, Ha.
    cbn [mret result_ret try_except]. split; [done|].
    destruct (get_url_type_cases (PStr url)) as [->|[->| ->]]; auto.
  - intros url e He. unfold extract_collection_name. by rewrite He.
  - done.
  - by vm_compute.
Qed.

(** ** Track details *)

Lemma extract_track_details_artist id d :
  track_artist (extract_track_details id (PDict d))
  = format_list_as_string (default (PList []) (dict_get d (lit "artists"))) (lit ", ").
Proof.
  unfold extract_track_details, track_artist, get_value. cbn.
  by destruct (dict_get d (lit "artists")).
Qed.

(** C9 (as amended): the record of the specification gives (Song, A, B
    joined by a comma and a space, spotify:track:1); an artist list is joined
    with that separator, its falsy entries skipped; an artist value that is
    no list is its own text when it is a string or truthy, and Unknown when
    it is falsy and no string. *)
Theorem extract_track_details_artists :
  (∀ id, extract_track_details id song_record
         = (PStr (lit "Song"), lit "A, B", PStr (lit "spotify:track:1")))
  ∧ (∀ id d l, dict_get d (lit "artists") = Some (PList l) →
       track_artist (extract_track_details id (PDict d))
       = str_join (lit ", ") (py_str <$> filter (λ item, truthy item = true) l))
  ∧ (∀ id d v, dict_get d (lit "artists") = Some v → is_list v = false →
       track_artist (extract_track_details id (PDict d))
       = if is_string v || truthy v then py_str v else lit "Unknown").
Proof.
  split_and!.
  - intros id. by vm_compute.
  - intros id d l Hd. by rewrite extract_track_details_artist, Hd.
  - intros id d v Hd Hv. rewrite extract_track_details_artist, Hd.
    destruct v as [| [|] | z | f | s | l | items]; try done;
      cbn [default from_option id format_list_as_string is_string orb];
      by destruct (truthy _).
Qed.

(** C10: a record whose artist list is present and empty has the empty
    artist display, so the name of the track is a space, a dash, a space and
    the title. *)
Theorem empty_artist_list_display id d :
  dict_get d (lit "artists") = Some (PList []) →
  track_artist (extract_track_details id (PDict d)) = []
  ∧ current_track (track_artist (extract_track_details id (PDict d)))
                  (track_title (extract_track_details id (PDict d)))
    = lit " - " ++ py_str (track_title (extract_track_details id (PDict d))).
Proof.
  intros Hd.
  assert (track_artist (extract_track_details id (PDict d)) = []) as Ha.
  { by rewrite extract_track_details_artist, Hd. }
  split; [done|]. unfold current_track. by rewrite Ha.
Qed.

(** ** The destination folder *)

Lemma lstrip_nil s : lstrip s = [] ↔ forallb is_space s = true.
Proof.
  induction s as [|c s IH]; [done|]. cbn.
  destruct (is_space c); [exact IH|done].
Qed.

Lemma forallb_reverse (f : char → bool) s : forallb f (reverse s) = forallb f s.
Proof.
  induction s as [|c s IH]; [done|].
  rewrite reverse_cons, forallb_app, IH. cbn. by rewrite andb_true_r, andb_comm.
Qed.

Lemma py_strip_nil s : py_strip s = [] ↔ forallb is_space s = true.
Proof.
  unfold py_strip, rstrip. rewrite <- lstrip_nil. split.
  - intros H. apply (f_equal reverse) in H. rewrite reverse_involutive in H.
    apply lstrip_nil in H. rewrite forallb_reverse in H.
    pose proof (lstrip_starts_clean s) as Hs.
    destruct (lstrip s) as [|c t]; [done|]. cbn in *. by destruct (is_space c).
  - by intros ->.
Qed.

(** A name sanitizes to nothing exactly when its text is white space. *)
Lemma clean_filename_nil v :
  clean_filename v = [] ↔ forallb is_space (py_str v) = true.
Proof.
  rewrite clean_filename_unfold. rewrite <- (py_strip_nil (py_str v)).
  rewrite py_strip_fmap by apply sanitize_char_space.
  destruct (py_strip (py_str v)); [done|]. by cbn.
Qed.

(** C8 (as amended): a record without a name gets the placeholder Unknown
    and the type in title case as its folder name, which is not empty; a
    record with a name gets an empty folder name exactly when the text of the
    name is empty or white space, and the folder is then the output directory
    itself. *)
Theorem destination_folder_name self url d :
  match dict_get d (lit "name") with
  | None =>
      clean_filename (collection_name (get_url_type url) (PDict d))
      ∈ [lit "Unknown Playlist"; lit "Unknown Album"; lit "Unknown Unknown"]
  | Some name =>
      (clean_filename (collection_name (get_url_type url) (PDict d)) = []
       ↔ forallb is_space (py_str name) = true)
      ∧ (forallb is_space (py_str name) = true →
         destination_folder self (get_url_type url) (PDict d) = output_dir self)
  end.
Proof.
  unfold destination_folder, collection_name, get_value.
  destruct (dict_get d (lit "name")) as [name|].
  - split; [apply clean_filename_nil|].
    intros H. apply clean_filename_nil in H. by rewrite H.
  - destruct (get_url_type_cases url) as [->|[->| ->]]; vm_compute;
      repeat first [by apply list_elem_of_here | apply list_elem_of_further].
Qed.

(** ** Computations with effects *)

Section Effects.
Context `{E : Environment}.

Lemma bind_Ok {A B} (m : M A) (f : A → M B) w a w' :
  m w = (Ok a, w') → (m ≫= f) w = f a w'.
Proof. unfold mbind, M_bind. by intros ->. Qed.

Lemma bind_Raise {A B} (m : M A) (f : A → M B) w e w' :
  m w = (Raise e, w') → (m ≫= f) w = (Raise e, w').
Proof. unfold mbind, M_bind. by intros ->. Qed.

Lemma try_catch_Ok {A} (body handler : M A) w a w' :
  body w = (Ok a, w') → try_catch body handler w = (Ok a, w').
Proof. unfold try_catch. by intros ->. Qed.

Lemma try_catch_Raise {A} (body handler : M A) w e w' :
  body w = (Raise e, w') → try_catch body handler w = handler w'.
Proof. unfold try_catch. by intros ->. Qed.

Lemma subprocess_run_eq cmd w r fs ds :
  env_run w cmd = (r, (fs, ds)) →
  subprocess_run cmd w
  = (r, {| files := fs; dirs := ds; spawned := spawned w ++ [cmd] |}).
Proof. unfold subprocess_run. by intros ->. Qed.

(** ** Fetching the metadata *)

(** C6: when the metadata file holds a bare list of tracks, the collection
    record has exactly these tracks, in order, under songs, the name derived
    from the URL and the type of the URL. *)
Theorem fetch_playlist_data_bare_list spotify_url w out fs ds text tracks :
  env_run (with_temp_file w) (save_command spotify_url (env_tmpname w))
  = (Ok out, (fs, ds)) →
  fs !! env_tmpname w = Some text →
  json_loads text = Ok (PList tracks) →
  (fetch_playlist_data spotify_url w).1 = Ok (converted_data spotify_url (PList tracks))
  ∧ get_value (converted_data spotify_url (PList tracks)) (lit "songs") (PList []) = PList tracks
  ∧ get_value (converted_data spotify_url (PList tracks)) (lit "name") PNone
    = PStr (extract_collection_name spotify_url)
  ∧ get_value (converted_data spotify_url (PList tracks)) (lit "type") PNone
    = PStr (get_url_type spotify_url).
Proof.
  intros Hrun Hfile Hjson. split; [|done].
  unfold fetch_playlist_data, fetch_playlist_data_body.
  erewrite try_catch_Ok; [done|].
  erewrite bind_Ok by done.
  erewrite bind_Ok by (by apply subprocess_run_eq).
  erewrite bind_Ok; last first.
  { unfold open_json_load. cbn [files]. by rewrite Hfile, Hjson. }
  erewrite bind_Ok; last first.
  { unfold os_unlink. cbn [files]. by rewrite Hfile. }
  done.
Qed.

(** When the metadata file parses, it is gone afterwards: the source does
    remove its temporary file on this path. *)
Lemma fetch_playlist_data_removes_temp_file spotify_url w out fs ds text data :
  env_run (with_temp_file w) (save_command spotify_url (env_tmpname w))
  = (Ok out, (fs, ds)) →
  fs !! env_tmpname w = Some text →
  json_loads text = Ok data →
  files (fetch_playlist_data spotify_url w).2 !! env_tmpname w = None.
Proof.
  intros Hrun Hfile Hjson.
  assert (∃ r, fetch_playlist_data_body spotify_url w
               = (Ok r, {| files := delete (env_tmpname w) fs; dirs := ds;
                           spawned := spawned w
                                      ++ [save_command spotify_url (env_tmpname w)] |}))
    as [r Hbody].
  { unfold fetch_playlist_data_body.
    erewrite bind_Ok by done.
    erewrite bind_Ok by (by apply subprocess_run_eq).
    erewrite bind_Ok; last first.
    { unfold open_json_load. cbn [files]. by rewrite Hfile, Hjson. }
    erewrite bind_Ok; last first.
    { unfold os_unlink. cbn [files]. by rewrite Hfile. }
    destruct data; by eexists. }
  unfold fetch_playlist_data. rewrite (try_catch_Ok _ _ _ _ _ Hbody).
  cbn. apply lookup_delete_eq.
Qed.

(** C2, on the side the source gets wrong: when the metadata file does not
    parse, [fetch_playlist_data] returns None and the temporary file is
    still there. *)
Theorem fetch_playlist_data_leaves_temp_file spotify_url w out fs ds text e :
  env_run (with_temp_file w) (save_command spotify_url (env_tmpname w))
  = (Ok out, (fs, ds)) →
  fs !! env_tmpname w = Some text →
  json_loads text = Raise e →
  (fetch_playlist_data spotify_url w).1 = Ok PNone
  ∧ files (fetch_playlist_data spotify_url w).2 !! env_tmpname w = Some text.
Proof.
  intros Hrun Hfile Hjson.
  assert (fetch_playlist_data_body spotify_url w
          = (Raise e, {| files := fs; dirs := ds;
                         spawned := spawned w
                                    ++ [save_command spotify_url (env_tmpname w)] |}))
    as Hbody.
  { unfold fetch_playlist_data_body.
    erewrite bind_Ok by done.
    erewrite bind_Ok by (by apply subprocess_run_eq).
    erewrite bind_Raise; [done|].
    unfold open_json_load. cbn [files]. by rewrite Hfile, Hjson. }
  unfold fetch_playlist_data. by rewrite (try_catch_Raise _ _ _ _ _ Hbody).
Qed.

(** ** One track *)

Lemma clean_filename_no_star v : 42%N ∉ clean_filename v.
Proof.
  intros [i Hi]%list_elem_of_lookup_1.
  assert ((sanitize_char <$> clean_filename v) !! i = Some 42%N) as Hs.
  { by rewrite clean_filename_sanitized. }
  pose proof (eq_trans (eq_sym (f_equal (fmap sanitize_char) Hi))
                (eq_trans (eq_sym (list_lookup_fmap sanitize_char _ i)) Hs)) as H.
  by vm_compute in H.
Qed.

Lemma fnmatch_literal l pat name :
  42%N ∉ l → fnmatch (l ++ pat) (l ++ name) = fnmatch pat name.
Proof.
  intros Hl. induction l as [|c l IH]; [done|].
  apply not_elem_of_cons in Hl as [Hc Hl].
  cbn [app fnmatch]. destruct (char_eqb c 42%N) eqn:Hstar.
  { apply char_eqb_eq in Hstar. congruence. }
  rewrite (proj2 (char_eqb_eq c c)) by done. by apply IH.
Qed.

Lemma fnmatch_star name : fnmatch [42%N] name = true.
Proof. induction name as [|c name IH]; [done|]. cbn in *. exact IH. Qed.

Lemma fnmatch_stem stem ext :
  42%N ∉ stem → fnmatch (stem ++ lit ".*") (stem ++ lit "." ++ ext) = true.
Proof.
  intros Hs. rewrite fnmatch_literal by done.
  change (fnmatch (lit ".*") (lit "." ++ ext)) with (fnmatch [42%N] ext).
  apply fnmatch_star.
Qed.

Lemma py_print_Ok text w :
  printable text = true → py_print text w = (Ok (), w).
Proof. unfold py_print. by intros ->. Qed.

Lemma py_print_Raise text w :
  printable text = false → py_print text w = (Raise UnicodeEncodeError, w).
Proof. unfold py_print. by intros ->. Qed.

Lemma process_track_eq folder i track :
  process_track folder i track =
    (_ ← py_print (progress_line i track); after_progress_line folder i track).
Proof.
  unfold process_track, after_progress_line, progress_line, target_stem.
  by destruct (extract_track_details (env_id i) track) as [[title artist] url].
Qed.

(** The progress line decides whether the body gets to its work. *)
Lemma process_track_printable folder i track w :
  printable (progress_line i track) = true →
  process_track folder i track w = after_progress_line folder i track w.
Proof.
  intros Hp. rewrite process_track_eq.
  by rewrite (bind_Ok _ _ _ _ _ (py_print_Ok _ w Hp)).
Qed.

Lemma process_track_unprintable folder i track w :
  printable (progress_line i track) = false →
  process_track folder i track w = (Raise UnicodeEncodeError, w).
Proof.
  intros Hp. rewrite process_track_eq.
  by rewrite (bind_Raise _ _ _ _ _ (py_print_Raise _ w Hp)).
Qed.

(** Once the progress line of a track went out, the download functions can
    announce it too: they print the same text. *)
Lemma download_with_spotdl_primary_printed u d t w :
  printable (current_track (track_artist t) (track_title t)) = true →
  download_with_spotdl_primary u d t w
  = try_catch (_ ← subprocess_run (primary_command u d); mret true)
      (try_catch (_ ← subprocess_run (reduced_command u d); mret true)
         (mret false)) w.
Proof.
  destruct t as [[title artist] url]. unfold track_artist, track_title. cbn [fst snd].
  intros Hp. unfold download_with_spotdl_primary, try_catch.
  by rewrite (bind_Ok _ _ _ _ _ (py_print_Ok _ w Hp)).
Qed.

Lemma download_with_spotdl_primary_unprinted u d t w :
  printable (current_track (track_artist t) (track_title t)) = false →
  download_with_spotdl_primary u d t w
  = try_catch (_ ← subprocess_run (reduced_command u d); mret true) (mret false) w.
Proof.
  destruct t as [[title artist] url]. unfold track_artist, track_title. cbn [fst snd].
  intros Hp. unfold download_with_spotdl_primary.
  by rewrite (try_catch_Raise _ _ _ _ _
                (bind_Raise _ _ _ _ _ (py_print_Raise _ w Hp))).
Qed.

Lemma download_with_ytdlp_fallback_printed v o t w :
  printable (current_track (track_artist t) (track_title t)) = true →
  download_with_ytdlp_fallback v o t w
  = try_catch (_ ← subprocess_run (fallback_command v o); mret true) (mret false) w.
Proof.
  destruct t as [[title artist] url]. unfold track_artist, track_title. cbn [fst snd].
  intros Hp. unfold download_with_ytdlp_fallback, try_catch.
  by rewrite (bind_Ok _ _ _ _ _ (py_print_Ok _ w Hp)).
Qed.

Lemma after_progress_line_skips folder i track w name ext :
  name ∈ dir_entries w folder →
  name = target_stem i track ++ lit "." ++ ext →
  after_progress_line folder i track w = (Ok Skipped, w).
Proof.
  intros Hin Hname. unfold after_progress_line, mbind, M_bind, glob.
  assert (name ∈ filter (λ name, fnmatch (target_stem i track ++ lit ".*") name = true)
                   (dir_entries w folder)) as Hf.
  { apply list_elem_of_filter. split; [|done].
    rewrite Hname. apply fnmatch_stem, clean_filename_no_star. }
  destruct (filter _ (dir_entries w folder)); [|done].
  by apply not_elem_of_nil in Hf.
Qed.

(** C1: a track whose sanitized name, followed by a dot and any extension,
    is the name of an entry of the destination folder, and whose progress
    line can be printed, is skipped: the world is unchanged, so neither tool
    was run, and the loop goes on with the next track after adding one to
    the successes.  When the progress line cannot be printed the body
    raises before it looks at the folder, and the track is counted as failed;
    neither tool is run then either. *)
Theorem existing_track_is_skipped folder i track w name ext :
  name ∈ dir_entries w folder →
  name = target_stem i track ++ lit "." ++ ext →
  (printable (progress_line i track) = true →
     process_track folder i track w = (Ok Skipped, w)
     ∧ ∀ rest c,
         track_loop (process_track folder) i (track :: rest) c w
         = track_loop (process_track folder) (S i) rest (succeeded c) w)
  ∧ (printable (progress_line i track) = false →
     process_track folder i track w = (Raise UnicodeEncodeError, w)
     ∧ ∀ rest c,
         track_loop (process_track folder) i (track :: rest) c w
         = track_loop (process_track folder) (S i) rest (failed c) w)
  ∧ spawned (process_track folder i track w).2 = spawned w.
Proof.
  intros Hin Hname.
  assert (printable (progress_line i track) = true →
          process_track folder i track w = (Ok Skipped, w)) as Hskip.
  { intros Hp. rewrite process_track_printable by done.
    by eapply after_progress_line_skips. }
  split_and!.
  - intros Hp. split; [by apply Hskip|].
    intros rest c. cbn [track_loop]. by rewrite Hskip.
  - intros Hp. split; [by apply process_track_unprintable|].
    intros rest c. cbn [track_loop]. by rewrite process_track_unprintable.
  - destruct (printable (progress_line i track)) eqn:Hp.
    + by rewrite Hskip.
    + by rewrite process_track_unprintable.
Qed.

(** ** The loop over the tracks *)

Lemma total_ret {A} (a : A) : total (mret a).
Proof. intros w. by eexists _, _. Qed.

Lemma total_bind {A B} (m : M A) (f : A → M B) :
  total m → (∀ a, total (f a)) → total (m ≫= f).
Proof.
  intros Hm Hf w. destruct (Hm w) as (a & w' & Ha).
  destruct (Hf a w') as (b & w'' & Hb).
  exists b, w''. by rewrite (bind_Ok _ _ _ _ _ Ha).
Qed.

Lemma total_try_catch {A} (body handler : M A) :
  total handler → total (try_catch body handler).
Proof.
  intros Hh w. unfold try_catch.
  destruct (body w) as [[a|e] w']; [by eexists _, _|apply Hh].
Qed.

Lemma total_if {A} (b : bool) (m1 m2 : M A) :
  total m1 → total m2 → total (if b then m1 else m2).
Proof. by destruct b. Qed.

Lemma total_glob folder pattern : total (glob folder pattern).
Proof. intros w. by eexists _, _. Qed.

Lemma total_download_with_spotdl_primary track_url output_dir track_info :
  total (download_with_spotdl_primary track_url output_dir track_info).
Proof.
  destruct track_info as [[title artist] url].
  repeat apply total_try_catch. apply total_ret.
Qed.

Lemma total_download_with_ytdlp_fallback video_url output_path track_info :
  total (download_with_ytdlp_fallback video_url output_path track_info).
Proof.
  destruct track_info as [[title artist] url].
  apply total_try_catch, total_ret.
Qed.

Lemma total_search_youtube_track artist title :
  total (search_youtube_track artist title).
Proof. apply total_try_catch, total_ret. Qed.

(** After the progress line, the body of the loop turns every exception of
    the tools into an outcome. *)
Lemma total_after_progress_line folder i track :
  total (after_progress_line folder i track).
Proof.
  unfold after_progress_line. cbv zeta.
  apply total_bind; [apply total_glob|]. intros [|name names]; [|apply total_ret].
  apply total_bind.
  { apply total_if; [apply total_download_with_spotdl_primary|apply total_ret]. }
  intros success. apply total_bind; [|intros; apply total_ret].
  apply total_if; [|apply total_ret].
  apply total_bind; [apply total_search_youtube_track|]. intros youtube_url.
  apply total_if; [apply total_download_with_ytdlp_fallback|apply total_ret].
Qed.

Lemma count_total c r :
  success_count (count c r) + failed_count (count c r)
  = S (success_count c + failed_count c).
Proof. destruct r as [[| |]|e]; cbn; lia. Qed.

Lemma track_loop_total body i tracks c w :
  success_count (track_loop body i tracks c w).1
  + failed_count (track_loop body i tracks c w).1
  = success_count c + failed_count c + length tracks.
Proof.
  revert i c w. induction tracks as [|track tracks IH]; intros i c w; cbn; [lia|].
  destruct (body i track w) as [r w']. rewrite IH, count_total. lia.
Qed.

Lemma subprocess_run_raises cmd w :
  (∀ w cmd, ∃ e fs, env_run w cmd = (Raise e, fs)) →
  ∃ e w', subprocess_run cmd w = (Raise e, w').
Proof.
  intros Hfail. destruct (Hfail w cmd) as (e & [fs ds] & Hrun).
  exists e. eexists. by apply subprocess_run_eq.
Qed.

Lemma run_then_true_raises cmd w :
  (∀ w cmd, ∃ e fs, env_run w cmd = (Raise e, fs)) →
  ∃ e w', (subprocess_run cmd ≫= λ _, mret true) w = (Raise e, w').
Proof.
  intros Hfail. destruct (subprocess_run_raises cmd w Hfail) as (e & w' & Hrun).
  exists e, w'. by apply bind_Raise.
Qed.

(** When every run of a tool raises, a track that is not there yet ends as
    Failed: the exceptions stay inside the download functions. *)
Lemma process_track_tools_fail folder i track w :
  printable (progress_line i track) = true →
  (∀ w cmd, ∃ e fs, env_run w cmd = (Raise e, fs)) →
  (glob folder (target_stem i track ++ lit ".*") w).1 = Ok [] →
  (process_track folder i track w).1 = Ok Failed.
Proof.
  intros Hp Hfail Hglob. rewrite process_track_printable by done.
  unfold after_progress_line. cbv zeta.
  assert (glob folder (target_stem i track ++ lit ".*") w = (Ok [], w)) as Hg.
  { unfold glob in *. cbn [fst] in Hglob. injection Hglob as Hf. by rewrite Hf. }
  rewrite (bind_Ok _ _ _ _ _ Hg).
  assert (∀ u d w0, ∃ w1,
            (if truthy u
             then download_with_spotdl_primary u d
                    (extract_track_details (env_id i) track)
             else mret false) w0
            = (Ok false, w1)) as Hprimary.
  { intros u d w0. destruct (truthy u); [|by eexists].
    rewrite download_with_spotdl_primary_printed by done.
    edestruct run_then_true_raises as (e1 & w1 & H1); [done|].
    rewrite (try_catch_Raise _ _ _ _ _ H1).
    edestruct run_then_true_raises as (e2 & w2 & H2); [done|].
    rewrite (try_catch_Raise _ _ _ _ _ H2). by eexists. }
  edestruct Hprimary as (w1 & H1). rewrite (bind_Ok _ _ _ _ _ H1). cbn [negb].
  assert (∀ a t w0, ∃ w2, search_youtube_track a t w0 = (Ok PNone, w2)) as Hsearch.
  { intros a t w0. unfold search_youtube_track.
    destruct (subprocess_run_raises
                [lit "yt-dlp"; lit "--quiet"; lit "--dump-json";
                 lit "--playlist-end"; lit "3";
                 lit "ytsearch3:" ++ a ++ lit " - " ++ py_str t] w0 Hfail)
      as (e & w2 & Hrun).
    rewrite (try_catch_Raise _ _ _ _ _ (bind_Raise _ _ _ _ _ Hrun)). by eexists. }
  destruct (Hsearch (track_artist (extract_track_details (env_id i) track))
              (track_title (extract_track_details (env_id i) track)) w1)
    as (w2 & H2).
  erewrite bind_Ok; last by rewrite (bind_Ok _ _ _ _ _ H2).
  done.
Qed.

(** C7: whatever the body of the loop does with a track, also when it
    raises, the track is counted once and the loop goes on: at the end the
    two counters add up to the number of tracks; an exception adds one to
    the failures and the remaining tracks are processed.  The body of the
    source lets no exception of the tools escape: it raises exactly when the
    progress line of the track cannot be printed, before any tool has run,
    and the loop then counts the track as failed and goes on; and a download
    in which every tool raises ends as a failure of that track. *)
Theorem track_failure_does_not_abort body folder i tracks c w :
  success_count (track_loop body i tracks c w).1
  + failed_count (track_loop body i tracks c w).1
  = success_count c + failed_count c + length tracks
  ∧ (∀ track rest e w',
       body i track w = (Raise e, w') →
       track_loop body i (track :: rest) c w
       = track_loop body (S i) rest (failed c) w')
  ∧ (∀ track,
       (printable (progress_line i track) = true →
        ∃ o w', process_track folder i track w = (Ok o, w'))
       ∧ (printable (progress_line i track) = false →
          process_track folder i track w = (Raise UnicodeEncodeError, w)
          ∧ ∀ rest,
              track_loop (process_track folder) i (track :: rest) c w
              = track_loop (process_track folder) (S i) rest (failed c) w))
  ∧ (∀ track,
       printable (progress_line i track) = true →
       (∀ w cmd, ∃ e fs, env_run w cmd = (Raise e, fs)) →
       (glob folder (target_stem i track ++ lit ".*") w).1 = Ok [] →
       (process_track folder i track w).1 = Ok Failed)
  ∧ ∃ c' w', download_tracks folder tracks w = (Ok c', w')
             ∧ success_count c' + failed_count c' = length tracks.
Proof.
  split_and!.
  - apply track_loop_total.
  - intros track rest e w' Hbody. cbn [track_loop]. by rewrite Hbody.
  - intros track. split; intros Hp.
    + rewrite process_track_printable by done. apply total_after_progress_line.
    + split; [by apply process_track_unprintable|].
      intros rest. cbn [track_loop]. by rewrite process_track_unprintable.
  - intros track. apply process_track_tools_fail.
  - unfold download_tracks.
    pose proof (track_loop_total (process_track folder) 1 tracks
                  {| success_count := 0; failed_count := 0 |} w) as Ht.
    destruct (track_loop _ _ _ _ _) as [c' w']. by exists c', w'.
Qed.

(** ** The whole run *)




End Effects.

End Properties.

(** * Further properties of the module *)

Section MoreProperties.
Context `{R : PyRuntime} `{E : Environment}.

(** ** Names that are safe for the file system *)

Lemma sanitize_char_safe c : is_safe (sanitize_char c) = true.
Proof.
  unfold is_safe, sanitize_char.
  destruct (is_reserved c) eqn:Hr; [|destruct (is_unsafe c) eqn:Hu];
    rewrite ?is_unsafe_underscore; change (is_reserved 95%N) with false;
    by rewrite ?is_unsafe_underscore, ?Hr, ?Hu.
Qed.

Lemma forallb_sanitized s : forallb is_safe (sanitize_char <$> s) = true.
Proof.
  induction s as [|c s IH]; [done|].
  rewrite fmap_cons. cbn [forallb]. by rewrite sanitize_char_safe, IH.
Qed.

(** X1: whatever value the program sanitizes, a string or any other value
    whose [str] is defined, the name holds none of the reserved characters
    (no slash and no backslash among them) and no character outside word
    characters, white space, dash, underscore and dot, and it does not start
    with white space. *)
Theorem clean_filename_safe v :
  within_digit_limit v = true →
  forallb is_safe (clean_filename v) = true
  ∧ starts_clean (clean_filename v) = true.
Proof.
  intros _. split; [|apply clean_filename_starts_clean].
  rewrite <- clean_filename_sanitized. apply forallb_sanitized.
Qed.

(** ** Validating and classifying URLs *)

(** X2: the validator accepts exactly the URLs the classifier calls a
    playlist or an album. *)
Theorem valid_iff_classified url :
  is_valid_spotify_url url = true
  ↔ get_url_type url = lit "playlist" ∨ get_url_type url = lit "album".
Proof.
  unfold is_valid_spotify_url, get_url_type.
  destruct (str_contains (lit "spotify.com/playlist/") _);
    [|destruct (str_contains (lit "spotify.com/album/") _)]; cbn.
  - split; [by left|done].
  - split; [by right|done].
  - split; [done|]. by intros [H|H].
Qed.

Lemma py_lower_ascii s : forallb is_ascii s = true → py_lower s = ascii_lower <$> s.
Proof. unfold py_lower. by intros ->. Qed.

(** X3: two ASCII URLs that differ in the case of their letters only are
    classified and validated alike. *)
Theorem classification_ignores_case s t :
  forallb is_ascii s = true → forallb is_ascii t = true →
  ascii_lower <$> s = ascii_lower <$> t →
  get_url_type (PStr s) = get_url_type (PStr t)
  ∧ is_valid_spotify_url (PStr s) = is_valid_spotify_url (PStr t).
Proof.
  intros Hs Ht Heq. unfold get_url_type, is_valid_spotify_url. cbn [py_str].
  by rewrite !py_lower_ascii, Heq.
Qed.

Lemma py_lower_app_ascii s t :
  forallb is_ascii s = true → forallb is_ascii t = true →
  py_lower (s ++ t) = py_lower s ++ py_lower t.
Proof.
  intros Hs Ht. rewrite !py_lower_ascii, ?fmap_app; [done..|].
  by rewrite forallb_app, Hs, Ht.
Qed.

Lemma get_url_type_playlist_marker s t :
  forallb is_ascii s = true → forallb is_ascii t = true →
  get_url_type (PStr (s ++ lit "spotify.com/playlist/" ++ t)) = lit "playlist".
Proof.
  intros Hs Ht. unfold get_url_type. cbn [py_str].
  assert (forallb is_ascii (lit "spotify.com/playlist/" ++ t) = true) as Hmt.
  { by rewrite forallb_app, Ht. }
  rewrite (py_lower_app_ascii s _ Hs Hmt).
  rewrite (py_lower_app_ascii (lit "spotify.com/playlist/") t eq_refl Ht).
  change (py_lower (lit "spotify.com/playlist/")) with (lit "spotify.com/playlist/").
  by rewrite str_contains_occurs.
Qed.

(** X4: an ASCII URL that holds both markers, in either order, is a
    playlist. *)
Theorem playlist_marker_wins a b c :
  forallb is_ascii a = true → forallb is_ascii b = true →
  forallb is_ascii c = true →
  get_url_type
    (PStr (a ++ lit "spotify.com/album/" ++ b ++ lit "spotify.com/playlist/" ++ c))
  = lit "playlist"
  ∧ get_url_type
      (PStr (a ++ lit "spotify.com/playlist/" ++ b ++ lit "spotify.com/album/" ++ c))
    = lit "playlist".
Proof.
  intros Ha Hb Hc. split.
  - rewrite (app_assoc a), (app_assoc (a ++ _) b).
    apply get_url_type_playlist_marker; [|done].
    by rewrite !forallb_app, Ha, Hb.
  - apply get_url_type_playlist_marker; [done|].
    by rewrite !forallb_app, Hb, Hc.
Qed.

(** ** The name derived from a URL *)

Lemma extract_collection_name_forms url :
  (∃ id, length id ≤ 8
         ∧ extract_collection_name url = lit "Spotify_Playlist_" ++ id)
  ∨ (∃ id, length id ≤ 8
           ∧ extract_collection_name url = lit "Spotify_Album_" ++ id)
  ∨ extract_collection_name url = lit "Spotify_Playlist"
  ∨ extract_collection_name url = lit "Spotify_Album"
  ∨ extract_collection_name url = lit "Spotify_Unknown"
  ∨ extract_collection_name url = lit "Downloaded_Collection".
Proof.
  unfold extract_collection_name, extract_collection_name_body.
  destruct (py_in (lit "playlist/") url) as [[|]|e]; cbn [mbind result_bind].
  - destruct (py_split_method url (lit "playlist/")) as [parts|e];
      cbn [mbind result_bind mret result_ret try_except]; [|by do 5 right].
    left. eexists. split; [|done]. rewrite length_take. lia.
  - destruct (py_in (lit "album/") url) as [[|]|e]; cbn [mbind result_bind].
    + destruct (py_split_method url (lit "album/")) as [parts|e];
        cbn [mbind result_bind mret result_ret try_except]; [|by do 5 right].
      right. left. eexists. split; [|done]. rewrite length_take. lia.
    + cbn [mret result_ret try_except].
      destruct (get_url_type_cases url) as [->|[->| ->]]; auto 6.
    + by do 5 right.
  - by do 5 right.
Qed.

(** X5: whatever the URL is, also a value that is no string, the derived
    name has between 13 and 25 characters and sanitizes to a folder name
    that is not empty. *)
Theorem extract_collection_name_bounds url :
  13 ≤ length (extract_collection_name url)
  ∧ length (extract_collection_name url) ≤ 25
  ∧ 0 < length (clean_filename (PStr (extract_collection_name url))).
Proof.
  assert (∀ name, forallb is_space name = false →
                  0 < length (clean_filename (PStr name))) as Hclean.
  { intros name Hname.
    destruct (clean_filename (PStr name)) eqn:Hc; [|cbn; lia].
    apply clean_filename_nil in Hc. cbn [py_str] in Hc. congruence. }
  destruct (extract_collection_name_forms url)
    as [(id & Hid & ->)|[(id & Hid & ->)|[->|[->|[->| ->]]]]].
  - split_and!; [rewrite length_app; cbn; lia..|by apply Hclean].
  - split_and!; [rewrite length_app; cbn; lia..|by apply Hclean].
  - split_and!; [cbn; lia..|by apply Hclean].
  - split_and!; [cbn; lia..|by apply Hclean].
  - split_and!; [cbn; lia..|by apply Hclean].
  - split_and!; [cbn; lia..|by apply Hclean].
Qed.

(** ** Track details *)

Lemma placeholder_title x :
  truthy (PStr (lit "Track_" ++ x)) = true
  ∧ eq_str (PStr (lit "Track_" ++ x)) (lit "Unknown") = false.
Proof. done. Qed.

(** What [extract_track_details] does with the title it has read. *)
Lemma kept_title title x :
  (if negb (truthy title) || eq_str title (lit "Unknown")
   then PStr (lit "Track_" ++ x) else title) = PStr (lit "Track_" ++ x)
  ∨ (truthy title = true ∧ eq_str title (lit "Unknown") = false
     ∧ (if negb (truthy title) || eq_str title (lit "Unknown")
        then PStr (lit "Track_" ++ x) else title) = title).
Proof.
  destruct (negb (truthy title) || eq_str title (lit "Unknown")) eqn:Ht;
    [by left|right].
  apply orb_false_elim in Ht as [Ht1 Ht2]. by apply negb_false_iff in Ht1.
Qed.

(** X6: the title of a track is never falsy and never the word Unknown.
    The name of a record, or of the record a list starts with, is kept when
    it is truthy and not Unknown; a name that is missing, falsy or Unknown
    is replaced by Track_ and the identity of the track object.  A list that
    starts with anything else is titled by its joined elements, under the
    same replacement; every other track gets the placeholder. *)
Theorem extract_track_details_title id track :
  truthy (track_title (extract_track_details id track)) = true
  ∧ eq_str (track_title (extract_track_details id track)) (lit "Unknown") = false
  ∧ (∀ d, track = PDict d ∨ (∃ rest, track = PList (PDict d :: rest)) →
       track_title (extract_track_details id track)
       = match dict_get d (lit "name") with
         | Some name =>
             if negb (truthy name) || eq_str name (lit "Unknown")
             then placeholder id else name
         | None => placeholder id
         end)
  ∧ (∀ first rest, track = PList (first :: rest) → is_dict first = false →
       track_title (extract_track_details id track)
       = if negb (truthy (PStr (format_list_as_string track (lit ", "))))
            || eq_str (PStr (format_list_as_string track (lit ", "))) (lit "Unknown")
         then placeholder id
         else PStr (format_list_as_string track (lit ", ")))
  ∧ (is_dict track = false → is_list track = false →
       track_title (extract_track_details id track) = placeholder id)
  ∧ (track = PList [] →
       track_title (extract_track_details id track) = placeholder id).
Proof.
  assert (truthy (track_title (extract_track_details id track)) = true
          ∧ eq_str (track_title (extract_track_details id track)) (lit "Unknown") = false)
    as [Htruthy Hknown].
  { unfold extract_track_details, track_title.
    destruct track as [| b | z | f | s | [|first rest] | d];
      [..|destruct first as [| b | z | f | s | l | d]|];
      cbv beta iota zeta; cbn [fst snd];
      match goal with
      | |- context [if negb (truthy ?t) || _ then _ else _] =>
          destruct (kept_title t (lit (pretty id))) as [->|(Ht1 & Ht2 & ->)];
          [apply placeholder_title|done]
      end. }
  split_and!; [done|done|..].
  - intros d [->|[rest ->]]; unfold extract_track_details, track_title, placeholder;
      cbn [get_value fst snd]; by destruct (dict_get d (lit "name")).
  - intros first rest -> Hfirst.
    unfold extract_track_details, track_title, placeholder.
    by destruct first.
  - intros Hd Hl. by destruct track.
  - by intros ->.
Qed.

(** Of a track that is a list only the first element is read: a list that
    starts with a record gives what the record alone gives; and a track that
    is neither a record nor a list with elements gives the placeholder
    title, the empty artist display and no source reference. *)
Lemma extract_track_details_shapes id :
  (∀ d rest, extract_track_details id (PList (PDict d :: rest))
             = extract_track_details id (PDict d))
  ∧ (∀ track, is_dict track = false → is_list track = false →
       extract_track_details id track
       = (PStr (lit "Track_" ++ lit (pretty id)), [], PStr []))
  ∧ extract_track_details id (PList [])
    = (PStr (lit "Track_" ++ lit (pretty id)), [], PStr []).
Proof.
  split_and!; [done| |done].
  intros track Hd Hl. by destruct track.
Qed.

(** ** Fetching the metadata *)

(** Every path through [fetch_playlist_data]. *)
Lemma fetch_playlist_data_cases spotify_url w :
  fetch_playlist_data spotify_url w
  = match env_run (with_temp_file w) (save_command spotify_url (env_tmpname w)) with
    | (Raise _, fsd) =>
        (Ok PNone, after_run w (save_command spotify_url (env_tmpname w)) fsd)
    | (Ok _, fsd) =>
        match fsd.1 !! env_tmpname w with
        | None =>
            (Ok PNone, after_run w (save_command spotify_url (env_tmpname w)) fsd)
        | Some text =>
            match json_loads text with
            | Raise _ =>
                (Ok PNone,
                 after_run w (save_command spotify_url (env_tmpname w)) fsd)
            | Ok data =>
                (Ok (normalized spotify_url data),
                 {| files := delete (env_tmpname w) fsd.1; dirs := fsd.2;
                    spawned := spawned w
                               ++ [save_command spotify_url (env_tmpname w)] |})
            end
        end
    end.
Proof.
  unfold fetch_playlist_data, fetch_playlist_data_body.
  destruct (env_run _ _) as [[out|e] [fs ds]] eqn:Hrun; cbn [fst snd].
  - destruct (fs !! env_tmpname w) as [text|] eqn:Hfile;
      [destruct (json_loads text) as [data|e] eqn:Hjson|].
    + erewrite try_catch_Ok; [done|].
      erewrite bind_Ok by done.
      erewrite bind_Ok by (by apply subprocess_run_eq).
      erewrite bind_Ok; last first.
      { unfold open_json_load. cbn [files]. by rewrite Hfile, Hjson. }
      erewrite bind_Ok; last first.
      { unfold os_unlink. cbn [files]. by rewrite Hfile. }
      by destruct data.
    + erewrite try_catch_Raise; [done|].
      erewrite bind_Ok by done.
      erewrite bind_Ok by (by apply subprocess_run_eq).
      erewrite bind_Raise; [done|].
      unfold open_json_load. cbn [files]. by rewrite Hfile, Hjson.
    + erewrite try_catch_Raise; [done|].
      erewrite bind_Ok by done.
      erewrite bind_Ok by (by apply subprocess_run_eq).
      erewrite bind_Raise; [done|].
      unfold open_json_load. cbn [files]. by rewrite Hfile.
  - erewrite try_catch_Raise; [done|].
    erewrite bind_Ok by done.
    erewrite bind_Raise; [done|].
    etrans; [by apply subprocess_run_eq|done].
Qed.

Lemma normalized_cases spotify_url data :
  normalized spotify_url data = PNone ∨ is_dict (normalized spotify_url data) = true.
Proof. destruct data; by auto. Qed.

(** X7: when the tool has run and the metadata file parses, the result
    follows the shape of the root, a record as it is, a list wrapped into a
    record, None for anything else, and in the world that is left the
    temporary file is gone and the log has grown by the one command. *)
Theorem fetch_playlist_data_shapes spotify_url w out fs ds text data :
  env_run (with_temp_file w) (save_command spotify_url (env_tmpname w))
  = (Ok out, (fs, ds)) →
  fs !! env_tmpname w = Some text →
  json_loads text = Ok data →
  fetch_playlist_data spotify_url w
  = (Ok (normalized spotify_url data),
     {| files := delete (env_tmpname w) fs; dirs := ds;
        spawned := spawned w ++ [save_command spotify_url (env_tmpname w)] |})
  ∧ (is_dict data = true → normalized spotify_url data = data)
  ∧ (is_dict data = false → is_list data = false →
     normalized spotify_url data = PNone).
Proof.
  intros Hrun Hfile Hjson. split_and!; [|by destruct data..].
  rewrite fetch_playlist_data_cases, Hrun. cbn [fst snd]. by rewrite Hfile, Hjson.
Qed.

(** X8: [fetch_playlist_data] never raises; it returns None or a record,
    never a list or a scalar; and it runs exactly one process, the command
    that saves the metadata. *)
Theorem fetch_playlist_data_result spotify_url w :
  ∃ v w', fetch_playlist_data spotify_url w = (Ok v, w')
          ∧ (v = PNone ∨ is_dict v = true)
          ∧ spawned w'
            = spawned w ++ [save_command spotify_url (env_tmpname w)].
Proof.
  rewrite fetch_playlist_data_cases.
  destruct (env_run _ _) as [[out|e] fsd];
    [|by eexists _, _; split_and!; [done|left|]].
  destruct (fsd.1 !! env_tmpname w) as [text|];
    [|by eexists _, _; split_and!; [done|left|]].
  destruct (json_loads text) as [data|e];
    [|by eexists _, _; split_and!; [done|left|]].
  eexists _, _. split_and!; [done|apply normalized_cases|done].
Qed.

(** X9: when the tool that saves the metadata fails, the result is None,
    nothing is read and nothing is removed: the world is the one the tool
    left, with the temporary file if the tool did not remove it. *)
Theorem fetch_playlist_data_tool_failure spotify_url w e fsd :
  env_run (with_temp_file w) (save_command spotify_url (env_tmpname w))
  = (Raise e, fsd) →
  fetch_playlist_data spotify_url w
  = (Ok PNone, after_run w (save_command spotify_url (env_tmpname w)) fsd)
  ∧ files (fetch_playlist_data spotify_url w).2 !! env_tmpname w
    = fsd.1 !! env_tmpname w.
Proof.
  intros Hrun. rewrite fetch_playlist_data_cases, Hrun. by split.
Qed.

(** ** The download functions *)

Lemma subprocess_run_after cmd w r fsd :
  env_run w cmd = (r, fsd) → subprocess_run cmd w = (r, after_run w cmd fsd).
Proof. destruct fsd as [fs ds]. apply subprocess_run_eq. Qed.

Lemma run_then_true cmd w r fsd :
  env_run w cmd = (r, fsd) →
  (subprocess_run cmd ≫= λ _, mret true) w
  = (match r with Ok _ => Ok true | Raise e => Raise e end, after_run w cmd fsd).
Proof.
  intros Hrun. unfold mbind, M_bind.
  rewrite (subprocess_run_after _ _ _ _ Hrun). by destruct r.
Qed.

(** X10: the primary download announces the track and runs the tool once
    with all its flags; only when that run fails it runs it a second time,
    with the first nine words of the same command line.  When the
    announcement cannot be printed the run with all flags is skipped and the
    shorter command line is run alone.  It returns true when a run worked,
    false otherwise, and never raises. *)
Theorem download_with_spotdl_primary_attempts track_url output_dir track_info w :
  download_with_spotdl_primary track_url output_dir track_info w
  = (if printable (current_track (track_artist track_info) (track_title track_info))
     then
       match env_run w (primary_command track_url output_dir) with
       | (Ok _, fsd) =>
           (Ok true, after_run w (primary_command track_url output_dir) fsd)
       | (Raise _, fsd) =>
           let w1 := after_run w (primary_command track_url output_dir) fsd in
           match env_run w1 (reduced_command track_url output_dir) with
           | (Ok _, fsd') =>
               (Ok true, after_run w1 (reduced_command track_url output_dir) fsd')
           | (Raise _, fsd') =>
               (Ok false, after_run w1 (reduced_command track_url output_dir) fsd')
           end
       end
     else
       match env_run w (reduced_command track_url output_dir) with
       | (Ok _, fsd') =>
           (Ok true, after_run w (reduced_command track_url output_dir) fsd')
       | (Raise _, fsd') =>
           (Ok false, after_run w (reduced_command track_url output_dir) fsd')
       end)
  ∧ reduced_command track_url output_dir
    = take 9 (primary_command track_url output_dir).
Proof.
  split; [|done].
  destruct (printable _) eqn:Hp.
  - rewrite download_with_spotdl_primary_printed by done.
    destruct (env_run w (primary_command track_url output_dir))
      as [[out|e] fsd] eqn:H1.
    + by rewrite (try_catch_Ok _ _ _ _ _ (run_then_true _ _ _ _ H1)).
    + rewrite (try_catch_Raise _ _ _ _ _ (run_then_true _ _ _ _ H1)). cbv zeta.
      destruct (env_run _ (reduced_command track_url output_dir))
        as [[out|e'] fsd'] eqn:H2.
      * by rewrite (try_catch_Ok _ _ _ _ _ (run_then_true _ _ _ _ H2)).
      * by rewrite (try_catch_Raise _ _ _ _ _ (run_then_true _ _ _ _ H2)).
  - rewrite download_with_spotdl_primary_unprinted by done.
    destruct (env_run w (reduced_command track_url output_dir))
      as [[out|e'] fsd'] eqn:H2.
    + by rewrite (try_catch_Ok _ _ _ _ _ (run_then_true _ _ _ _ H2)).
    + by rewrite (try_catch_Raise _ _ _ _ _ (run_then_true _ _ _ _ H2)).
Qed.

(** X11: [install_dependencies] installs the packages first and fetches
    FFmpeg only when that worked; it returns true when both runs worked and
    false, without raising, when one of them failed. *)
Theorem install_dependencies_steps w :
  install_dependencies w
  = match env_run w [lit "pip"; lit "install"; lit "spotdl"; lit "yt-dlp"] with
    | (Raise _, fsd) =>
        (Ok false,
         after_run w [lit "pip"; lit "install"; lit "spotdl"; lit "yt-dlp"] fsd)
    | (Ok _, fsd) =>
        let w1 :=
          after_run w [lit "pip"; lit "install"; lit "spotdl"; lit "yt-dlp"] fsd in
        match env_run w1 [lit "spotdl"; lit "--download-ffmpeg"] with
        | (Ok _, fsd') =>
            (Ok true, after_run w1 [lit "spotdl"; lit "--download-ffmpeg"] fsd')
        | (Raise _, fsd') =>
            (Ok false, after_run w1 [lit "spotdl"; lit "--download-ffmpeg"] fsd')
        end
    end.
Proof.
  unfold install_dependencies, try_catch, mbind, M_bind.
  destruct (env_run w _) as [[out|e] fsd] eqn:H1;
    rewrite (subprocess_run_after _ _ _ _ H1); [|done]. cbv zeta.
  destruct (env_run _ [lit "spotdl"; lit "--download-ffmpeg"])
    as [[out'|e'] fsd'] eqn:H2;
    by rewrite (subprocess_run_after _ _ _ _ H2).
Qed.

(** ** Searching for a video *)

Lemma first_video_url_skips skipped lines :
  Forall skipped_line skipped →
  first_video_url (skipped ++ lines) = first_video_url lines.
Proof.
  induction 1 as [|line skipped Hline _ IH]; [done|].
  cbn [app first_video_url]. destruct Hline as [->|[e He]]; [done|].
  rewrite He. by destruct line.
Qed.

(** X12: the search returns what the first line of the output that is not
    empty and parses as JSON says: its webpage_url, or None when it has
    none, whatever the lines after it hold; lines that are empty or do not
    parse are passed over. *)
Theorem search_youtube_track_first_result artist title w out fsd
    skipped line rest video :
  env_run w (search_command artist title) = (Ok out, fsd) →
  py_split [10%N] (py_strip out) = skipped ++ line :: rest →
  Forall skipped_line skipped →
  line ≠ [] →
  json_loads line = Ok video →
  search_youtube_track artist title w
  = (Ok (get_value video (lit "webpage_url") PNone),
     after_run w (search_command artist title) fsd).
Proof.
  intros Hrun Hlines Hskipped Hline Hvideo.
  unfold search_youtube_track. fold (search_command artist title).
  erewrite try_catch_Ok; [done|].
  erewrite bind_Ok by (by apply subprocess_run_after).
  unfold mret, M_ret. do 2 f_equal.
  rewrite Hlines, first_video_url_skips by done.
  cbn [first_video_url]. rewrite Hvideo. by destruct line.
Qed.

(** ** One track, from the primary tool to the fallback *)

Lemma glob_empty folder pattern w :
  (glob folder pattern w).1 = Ok [] → glob folder pattern w = (Ok [], w).
Proof. unfold glob. cbn [fst]. intros H. injection H as H. by rewrite H. Qed.

Lemma primary_first_run track_url output_dir track_info w out fsd :
  printable (current_track (track_artist track_info) (track_title track_info)) = true →
  env_run w (primary_command track_url output_dir) = (Ok out, fsd) →
  download_with_spotdl_primary track_url output_dir track_info w
  = (Ok true, after_run w (primary_command track_url output_dir) fsd).
Proof.
  intros Hp Hrun. rewrite download_with_spotdl_primary_printed by done.
  by rewrite (try_catch_Ok _ _ _ _ _ (run_then_true _ _ _ _ Hrun)).
Qed.

Lemma search_youtube_track_run artist title w :
  ∃ v, search_youtube_track artist title w
       = (Ok v, after_run w (search_command artist title)
                  (env_run w (search_command artist title)).2).
Proof.
  unfold search_youtube_track. fold (search_command artist title).
  destruct (env_run w (search_command artist title)) as [[out|e] fsd] eqn:Hrun;
    cbn [snd].
  - eexists. erewrite try_catch_Ok; [done|].
    by erewrite bind_Ok by (by apply subprocess_run_after).
  - exists PNone. erewrite try_catch_Raise; [done|].
    erewrite bind_Raise; [done|]. by apply subprocess_run_after.
Qed.

Lemma download_with_ytdlp_fallback_run video_url output_path track_info w :
  printable (current_track (track_artist track_info) (track_title track_info)) = true →
  ∃ b, download_with_ytdlp_fallback video_url output_path track_info w
       = (Ok b, after_run w (fallback_command video_url output_path)
                  (env_run w (fallback_command video_url output_path)).2).
Proof.
  intros Hp. rewrite download_with_ytdlp_fallback_printed by done.
  destruct (env_run w (fallback_command video_url output_path))
    as [[out|e] fsd] eqn:Hrun; cbn [snd].
  - exists true. by rewrite (try_catch_Ok _ _ _ _ _ (run_then_true _ _ _ _ Hrun)).
  - exists false.
    by rewrite (try_catch_Raise _ _ _ _ _ (run_then_true _ _ _ _ Hrun)).
Qed.

(** X13: when the progress line of the track can be printed, no file of
    the track is there, the track has a source reference and the first run
    of the primary tool works, the track is downloaded with that one
    process: no search and no fallback run. *)
Theorem process_track_primary_success folder i track w out fsd :
  printable (progress_line i track) = true →
  (glob folder (target_stem i track ++ lit ".*") w).1 = Ok [] →
  truthy (track_url (extract_track_details (env_id i) track)) = true →
  env_run w (primary_command (track_url (extract_track_details (env_id i) track))
               (path_str folder)) = (Ok out, fsd) →
  process_track folder i track w
  = (Ok Downloaded,
     after_run w
       (primary_command (track_url (extract_track_details (env_id i) track))
          (path_str folder)) fsd).
Proof.
  intros Hp Hglob Hurl Hrun. rewrite process_track_printable by done.
  unfold after_progress_line. cbv zeta.
  rewrite (bind_Ok _ _ _ _ _ (glob_empty _ _ _ Hglob)).
  rewrite Hurl.
  by rewrite (bind_Ok _ _ _ _ _ (primary_first_run _ _ _ _ _ _ Hp Hrun)).
Qed.

(** X14: when the progress line of the track can be printed, no file of
    the track is there and the track has no source reference, the primary
    tool is not run: the first process is the search, and the only other
    one, if any, is the fallback download. *)
Theorem process_track_without_reference folder i track w :
  printable (progress_line i track) = true →
  (glob folder (target_stem i track ++ lit ".*") w).1 = Ok [] →
  truthy (track_url (extract_track_details (env_id i) track)) = false →
  spawned (process_track folder i track w).2
  = spawned w
    ++ [search_command (track_artist (extract_track_details (env_id i) track))
          (track_title (extract_track_details (env_id i) track))]
  ∨ ∃ video_url,
      spawned (process_track folder i track w).2
      = spawned w
        ++ [search_command (track_artist (extract_track_details (env_id i) track))
              (track_title (extract_track_details (env_id i) track));
            fallback_command video_url
              (path_str (path_join folder (target_stem i track ++ lit ".%(ext)s")))].
Proof.
  intros Hp Hglob Hurl. rewrite process_track_printable by done.
  unfold after_progress_line. cbv zeta.
  rewrite (bind_Ok _ _ _ _ _ (glob_empty _ _ _ Hglob)).
  rewrite Hurl.
  erewrite (bind_Ok (mret false)) by done. cbn [negb].
  destruct (search_youtube_track_run
              (track_artist (extract_track_details (env_id i) track))
              (track_title (extract_track_details (env_id i) track)) w)
    as [v Hsearch].
  destruct (truthy v) eqn:Hv.
  - destruct (download_with_ytdlp_fallback_run v
                (path_str (path_join folder (target_stem i track ++ lit ".%(ext)s")))
                (extract_track_details (env_id i) track)
                (after_run w
                   (search_command
                      (track_artist (extract_track_details (env_id i) track))
                      (track_title (extract_track_details (env_id i) track)))
                   (env_run w
                      (search_command
                         (track_artist (extract_track_details (env_id i) track))
                         (track_title (extract_track_details (env_id i) track)))).2)
                Hp)
      as [b Hfallback].
    right. exists v.
    erewrite bind_Ok; last first.
    { rewrite (bind_Ok _ _ _ _ _ Hsearch), Hv. exact Hfallback. }
    cbn. by rewrite <- app_assoc.
  - left.
    erewrite bind_Ok; last first.
    { by rewrite (bind_Ok _ _ _ _ _ Hsearch), Hv. }
    done.
Qed.

Lemma primary_both_fail track_url output_dir track_info w e1 fsd1 e2 fsd2 :
  printable (current_track (track_artist track_info) (track_title track_info)) = true →
  env_run w (primary_command track_url output_dir) = (Raise e1, fsd1) →
  env_run (after_run w (primary_command track_url output_dir) fsd1)
    (reduced_command track_url output_dir) = (Raise e2, fsd2) →
  download_with_spotdl_primary track_url output_dir track_info w
  = (Ok false,
     after_run (after_run w (primary_command track_url output_dir) fsd1)
       (reduced_command track_url output_dir) fsd2).
Proof.
  intros Hp H1 H2. rewrite download_with_spotdl_primary_printed by done.
  rewrite (try_catch_Raise _ _ _ _ _ (run_then_true _ _ _ _ H1)).
  by rewrite (try_catch_Raise _ _ _ _ _ (run_then_true _ _ _ _ H2)).
Qed.

(** X15: when the progress line of the track can be printed, no file of
    the track is there and both runs of the primary tool fail, the search is
    the next process, followed by at most one more, the fallback
    download. *)
Theorem process_track_primary_failure folder i track w e1 fsd1 e2 fsd2 :
  printable (progress_line i track) = true →
  (glob folder (target_stem i track ++ lit ".*") w).1 = Ok [] →
  truthy (track_url (extract_track_details (env_id i) track)) = true →
  env_run w (primary_command (track_url (extract_track_details (env_id i) track))
               (path_str folder)) = (Raise e1, fsd1) →
  env_run (after_run w
             (primary_command (track_url (extract_track_details (env_id i) track))
                (path_str folder)) fsd1)
    (reduced_command (track_url (extract_track_details (env_id i) track))
       (path_str folder)) = (Raise e2, fsd2) →
  ∃ tail,
    spawned (process_track folder i track w).2
    = spawned w
      ++ [primary_command (track_url (extract_track_details (env_id i) track))
            (path_str folder);
          reduced_command (track_url (extract_track_details (env_id i) track))
            (path_str folder);
          search_command (track_artist (extract_track_details (env_id i) track))
            (track_title (extract_track_details (env_id i) track))]
      ++ tail
    ∧ length tail ≤ 1.
Proof.
  intros Hp Hglob Hurl H1 H2. rewrite process_track_printable by done.
  unfold after_progress_line. cbv zeta.
  rewrite (bind_Ok _ _ _ _ _ (glob_empty _ _ _ Hglob)).
  rewrite Hurl.
  rewrite (bind_Ok _ _ _ _ _ (primary_both_fail _ _ _ _ _ _ _ _ Hp H1 H2)).
  cbn [negb].
  set (w2 := after_run (after_run w _ fsd1) _ fsd2).
  destruct (search_youtube_track_run
              (track_artist (extract_track_details (env_id i) track))
              (track_title (extract_track_details (env_id i) track)) w2)
    as [v Hsearch].
  destruct (truthy v) eqn:Hv.
  - destruct (download_with_ytdlp_fallback_run v
                (path_str (path_join folder (target_stem i track ++ lit ".%(ext)s")))
                (extract_track_details (env_id i) track)
                (after_run w2
                   (search_command
                      (track_artist (extract_track_details (env_id i) track))
                      (track_title (extract_track_details (env_id i) track)))
                   (env_run w2
                      (search_command
                         (track_artist (extract_track_details (env_id i) track))
                         (track_title (extract_track_details (env_id i) track)))).2)
                Hp)
      as [b Hfallback].
    eexists [_].
    erewrite bind_Ok; last first.
    { rewrite (bind_Ok _ _ _ _ _ Hsearch), Hv. exact Hfallback. }
    split; [|done]. cbn. by rewrite <- !app_assoc.
  - exists [].
    erewrite bind_Ok; last first.
    { by rewrite (bind_Ok _ _ _ _ _ Hsearch), Hv. }
    split; [|cbn; lia]. cbn. by rewrite <- !app_assoc.
Qed.

(** ** Running a collection again *)

Lemma process_track_skips folder i track w ext :
  printable (progress_line i track) = true →
  target_stem i track ++ lit "." ++ ext ∈ dir_entries w folder →
  process_track folder i track w = (Ok Skipped, w).
Proof.
  intros Hp Hin. rewrite process_track_printable by done.
  by eapply after_progress_line_skips.
Qed.

Lemma track_loop_all_skipped folder tracks i c w :
  (∀ k track, tracks !! k = Some track →
     printable (progress_line (i + k) track) = true
     ∧ ∃ ext, target_stem (i + k) track ++ lit "." ++ ext ∈ dir_entries w folder) →
  track_loop (process_track folder) i tracks c w
  = ({| success_count := success_count c + length tracks;
        failed_count := failed_count c |}, w).
Proof.
  revert i c. induction tracks as [|track tracks IH]; intros i c Hall.
  { cbn. rewrite Nat.add_0_r. by destruct c. }
  cbn [track_loop].
  destruct (Hall 0 track eq_refl) as [Hp [ext Hext]].
  rewrite Nat.add_0_r in Hp, Hext.
  rewrite (process_track_skips _ _ _ _ _ Hp Hext), IH.
  - cbn. do 2 f_equal. lia.
  - intros k track' Hk. replace (S i + k) with (i + S k) by lia.
    by apply Hall.
Qed.

(** X16: when the folder holds a file for every track of the collection,
    and the progress line of every track can be printed, running the loop
    again counts every track as a success, runs no process and changes
    nothing. *)
Theorem download_tracks_resume folder tracks w :
  (∀ k track, tracks !! k = Some track →
     printable (progress_line (S k) track) = true
     ∧ ∃ ext, target_stem (S k) track ++ lit "." ++ ext ∈ dir_entries w folder) →
  download_tracks folder tracks w
  = (Ok {| success_count := length tracks; failed_count := 0 |}, w).
Proof.
  intros Hall. unfold download_tracks.
  by rewrite (track_loop_all_skipped folder tracks 1 _ w Hall).
Qed.

(** ** The whole run, again *)

Lemma sidecar_never_fatal (m : M ()) w : ∃ w', try_catch m (mret ()) w = (Ok (), w').
Proof. unfold try_catch. destruct (m w) as [[[]|e] w']; by eexists. Qed.

(** X17: when the metadata is a record with a list of tracks that is not
    empty, the name of the collection can be printed and the folder can be
    made, every track is processed, whether or not the metadata file could
    be written beside them: the run ends with a report whose counters add up
    to the number of tracks. *)
Theorem download_collection_counts self spotify_url w metadata w1 tracks w2 :
  fetch_playlist_data spotify_url w = (Ok metadata, w1) →
  truthy metadata = true →
  get_value metadata (lit "songs") (PList []) = PList tracks →
  truthy (PList tracks) = true →
  printable (py_str (collection_name (get_url_type spotify_url) metadata)) = true →
  mkdir_exist_ok (destination_folder self (get_url_type spotify_url) metadata) w1
  = (Ok (), w2) →
  ∃ r w', download_collection_run self spotify_url w = (Ok r, w')
          ∧ success_count (tally r) + failed_count (tally r) = length tracks
          ∧ overall r = bool_decide (0 < success_count (tally r)).
Proof.
  intros Hfetch Hmeta Hsongs Htracks Hname Hmkdir.
  unfold download_collection_run, download_collection_body.
  destruct (sidecar_never_fatal
              (open_json_dump
                 (path_join (destination_folder self (get_url_type spotify_url) metadata)
                    (get_url_type spotify_url ++ lit "_info.json")) metadata) w2)
    as [w3 Hsidecar].
  pose proof (track_loop_total
                (process_track (destination_folder self (get_url_type spotify_url) metadata))
                1 tracks {| success_count := 0; failed_count := 0 |} w3) as Htotal.
  destruct (track_loop _ 1 tracks _ w3) as [c w4] eqn:Hloop.
  exists {| overall := bool_decide (0 < success_count c); tally := c |}, w4.
  split; [|by split].
  apply try_catch_Ok.
  rewrite (bind_Ok _ _ _ _ _ Hfetch), Hmeta, Hsongs, Htracks. cbn [negb].
  rewrite (bind_Ok _ _ _ _ _ (py_print_Ok _ w1 Hname)).
  erewrite (bind_Ok (lift _)) by done.
  rewrite (bind_Ok _ _ _ _ _ Hmkdir), (bind_Ok _ _ _ _ _ Hsidecar).
  erewrite (bind_Ok (lift _)) by done.
  erewrite bind_Ok; [done|].
  unfold download_tracks. by rewrite Hloop.
Qed.

Lemma mkdir_exist_ok_raises p w e w' :
  mkdir_exist_ok p w = (Raise e, w') → w' = w.
Proof.
  unfold mkdir_exist_ok. repeat case_match; by intros [= <-].
Qed.

(** X18: when the metadata that was fetched is None or an empty record, or
    its songs are missing or empty or have no length, or the folder cannot
    be made, the run returns False in the world the fetch left: no folder,
    no metadata file, no download. *)
Theorem download_collection_gives_up self spotify_url w metadata w1 :
  fetch_playlist_data spotify_url w = (Ok metadata, w1) →
  truthy metadata = false
  ∨ truthy (get_value metadata (lit "songs") (PList [])) = false
  ∨ (∃ e, py_len (get_value metadata (lit "songs") (PList [])) = Raise e)
  ∨ (∃ e w2,
       mkdir_exist_ok (destination_folder self (get_url_type spotify_url) metadata) w1
       = (Raise e, w2)) →
  download_collection self spotify_url w = (false, w1).
Proof.
  intros Hfetch Hcause.
  unfold download_collection, download_collection_run, download_collection_body,
    try_catch.
  rewrite (bind_Ok _ _ _ _ _ Hfetch).
  destruct (truthy metadata) eqn:Hmeta; cbn [negb]; [|done].
  destruct (truthy (get_value metadata (lit "songs") (PList []))) eqn:Htracks;
    cbn [negb]; [|done].
  destruct (printable (py_str (collection_name (get_url_type spotify_url) metadata)))
    eqn:Hname;
    [rewrite (bind_Ok _ _ _ _ _ (py_print_Ok _ w1 Hname))
    |by rewrite (bind_Raise _ _ _ _ _ (py_print_Raise _ w1 Hname))].
  destruct (py_len (get_value metadata (lit "songs") (PList []))) as [n|e] eqn:Hlen.
  - destruct Hcause as [?|[?|[[e He]|(e & w2 & Hmkdir)]]]; [done..|].
    pose proof (mkdir_exist_ok_raises _ _ _ _ Hmkdir) as ->.
    erewrite (bind_Ok (lift _)) by done.
    by rewrite (bind_Raise _ _ _ _ _ Hmkdir).
  - by erewrite (bind_Raise (lift _)) by done.
Qed.

(** ** The loop that reads URLs *)

Lemma interactive_ignored_line self line lines w :
  ignored_line line = true →
  interactive_playlist_download self (line :: lines) w
  = interactive_playlist_download self lines w.
Proof.
  unfold ignored_line. intros [Hs Hv]%andb_true_iff.
  apply negb_true_iff in Hs. cbn [interactive_playlist_download].
  by rewrite Hs, Hv.
Qed.

(** X19: in the loop that reads URLs, a line that is neither a sentinel nor
    a valid URL has no effect, so the lines can be read without them; the
    lines after a sentinel are not read; and when only such lines come
    before the sentinel the loop ends with the world unchanged, no process
    run. *)
Theorem interactive_playlist_download_lines self lines stop rest w :
  is_sentinel (py_strip stop) = true →
  interactive_playlist_download self lines w
  = interactive_playlist_download self
      (filter (λ line, ignored_line line = false) lines) w
  ∧ interactive_playlist_download self (lines ++ stop :: rest) w
    = interactive_playlist_download self (lines ++ [stop]) w
  ∧ (forallb ignored_line lines = true →
     interactive_playlist_download self (lines ++ stop :: rest) w = (Finished, w)).
Proof.
  intros Hstop. split_and!.
  - revert w. induction lines as [|line lines IH]; intros w; [done|].
    destruct (ignored_line line) eqn:Hline.
    + rewrite interactive_ignored_line by done.
      rewrite filter_cons_False by (by rewrite Hline). apply IH.
    + rewrite filter_cons_True by done.
      cbn [interactive_playlist_download].
      destruct (is_sentinel (py_strip line)); [done|].
      destruct (negb (is_valid_spotify_url (PStr (py_strip line)))); [apply IH|].
      destruct (download_collection self (PStr (py_strip line)) w). apply IH.
  - revert w. induction lines as [|line lines IH]; intros w.
    + cbn [app interactive_playlist_download]. by rewrite Hstop.
    + cbn [app interactive_playlist_download].
      destruct (is_sentinel (py_strip line)); [done|].
      destruct (negb (is_valid_spotify_url (PStr (py_strip line)))); [apply IH|].
      destruct (download_collection self (PStr (py_strip line)) w). apply IH.
  - induction lines as [|line lines IH]; intros Hlines.
    + cbn [app interactive_playlist_download]. by rewrite Hstop.
    + cbn [forallb] in Hlines. apply andb_true_iff in Hlines as [Hline Hlines].
      cbn [app]. rewrite interactive_ignored_line by done. by apply IH.
Qed.

End MoreProperties.

(** * The statements on concrete inputs *)

(** C3, the claim as stated fails: sanitizing [long_name] gives 199 letters
    and a space, and sanitizing that gives the 199 letters. *)
Lemma clean_filename_not_idempotent :
  clean_filename (R:=toy_runtime) (PStr long_name) = replicate 199 97%N ++ [32%N]
  ∧ clean_filename (R:=toy_runtime)
      (PStr (clean_filename (R:=toy_runtime) (PStr long_name)))
    = replicate 199 97%N
  ∧ str_eqb
      (clean_filename (R:=toy_runtime)
         (PStr (clean_filename (R:=toy_runtime) (PStr long_name))))
      (clean_filename (R:=toy_runtime) (PStr long_name)) = false.
Proof. split_and!; by vm_compute. Qed.

(** C8, the claim as stated fails: a collection with an empty name gets the
    empty folder name, and its folder is the output directory. *)
Lemma empty_name_gives_empty_folder_name :
  clean_filename (R:=toy_runtime)
    (collection_name (R:=toy_runtime) (get_url_type (R:=toy_runtime) playlist_url)
       unnamed_collection) = []
  ∧ destination_folder (R:=toy_runtime) downloader
      (get_url_type (R:=toy_runtime) playlist_url) unnamed_collection
    = [lit "Downloads"].
Proof. split; by vm_compute. Qed.

(** C9, the claim as stated fails: the artist value zero is no list, its
    text is the digit zero, and its display is Unknown. *)
Lemma falsy_artist_is_unknown :
  is_list (PInt 0) = false
  ∧ py_str (R:=toy_runtime) (PInt 0) = lit "0"
  ∧ track_artist (extract_track_details (R:=toy_runtime) 1 numbered_artist)
    = lit "Unknown".
Proof. split_and!; by vm_compute. Qed.

(** C10 on a record with a name and an empty artist list. *)
Lemma empty_artist_list_display_witness :
  track_artist (extract_track_details (R:=toy_runtime) 1 (PDict no_artists)) = []
  ∧ current_track (R:=toy_runtime)
      (track_artist (extract_track_details (R:=toy_runtime) 1 (PDict no_artists)))
      (track_title (extract_track_details (R:=toy_runtime) 1 (PDict no_artists)))
    = lit " - " ++ py_str (R:=toy_runtime)
        (track_title (extract_track_details (R:=toy_runtime) 1 (PDict no_artists))).
Proof.
  apply (empty_artist_list_display (R:=toy_runtime) 1 no_artists). reflexivity.
Defined.

(** C1, the claim as stated fails: the folder holds a file under the
    sanitized name of the track, yet the body raises at its progress line
    and the loop counts the track as failed. *)
Lemma unprintable_track_is_not_skipped :
  bool_decide (lit "A - _.mp3" ∈ dir_entries surrogate_world album_folder) = true
  ∧ target_stem (R:=toy_runtime) (E:=silent_env) 1 surrogate_record ++ lit ".mp3"
    = lit "A - _.mp3"
  ∧ process_track (R:=toy_runtime) (E:=silent_env) album_folder 1 surrogate_record
      surrogate_world = (Raise UnicodeEncodeError, surrogate_world)
  ∧ track_loop (process_track (R:=toy_runtime) (E:=silent_env) album_folder) 1
      [surrogate_record] {| success_count := 0; failed_count := 0 |} surrogate_world
    = ({| success_count := 0; failed_count := 1 |}, surrogate_world).
Proof. split_and!; by vm_compute. Qed.

(** C1 on a folder that holds the file of the track already. *)
Lemma existing_track_is_skipped_witness :
  process_track (R:=toy_runtime) (E:=silent_env) album_folder 1 song_record
    resumed_world = (Ok Skipped, resumed_world)
  ∧ spawned (process_track (R:=toy_runtime) (E:=silent_env) album_folder 1
               song_record resumed_world).2 = spawned resumed_world
  ∧ ∀ rest c,
      track_loop (process_track (R:=toy_runtime) (E:=silent_env) album_folder) 1
        (song_record :: rest) c resumed_world
      = track_loop (process_track (R:=toy_runtime) (E:=silent_env) album_folder) 2
          rest (succeeded c) resumed_world.
Proof.
  destruct (existing_track_is_skipped (R:=toy_runtime) (E:=silent_env)
              album_folder 1 song_record resumed_world
              (lit "A_ B - Song.mp3") (lit "mp3")) as (Hskip & _ & Hspawned).
  - apply (bool_decide_unpack _). vm_compute. exact I.
  - vm_compute. reflexivity.
  - destruct Hskip as [Hbody Hloop]; [reflexivity|].
    split; [exact Hbody|]. split; [exact Hspawned|exact Hloop].
Defined.

(** C6 on a metadata file that holds a list of two tracks. *)
Lemma fetch_playlist_data_bare_list_witness :
  (fetch_playlist_data (R:=toy_runtime) (E:=two_tracks_env) playlist_url
     empty_world).1
  = Ok (converted_data (R:=toy_runtime) playlist_url (PList [PInt 1; PInt 2]))
  ∧ get_value (converted_data (R:=toy_runtime) playlist_url (PList [PInt 1; PInt 2]))
      (lit "songs") (PList []) = PList [PInt 1; PInt 2]
  ∧ get_value (converted_data (R:=toy_runtime) playlist_url (PList [PInt 1; PInt 2]))
      (lit "name") PNone
    = PStr (extract_collection_name (R:=toy_runtime) playlist_url)
  ∧ get_value (converted_data (R:=toy_runtime) playlist_url (PList [PInt 1; PInt 2]))
      (lit "type") PNone
    = PStr (get_url_type (R:=toy_runtime) playlist_url).
Proof.
  eapply (fetch_playlist_data_bare_list (R:=toy_runtime) (E:=two_tracks_env)
            playlist_url empty_world [] _ _ (lit "[1, 2]") [PInt 1; PInt 2]).
  - reflexivity.
  - vm_compute. reflexivity.
  - reflexivity.
Defined.

(** C2 on a run of [spotdl save] that exits normally and writes nothing:
    the empty temporary file stays. *)
Lemma fetch_playlist_data_leaves_temp_file_witness :
  (fetch_playlist_data (R:=toy_runtime) (E:=silent_env) playlist_url empty_world).1
  = Ok PNone
  ∧ files (fetch_playlist_data (R:=toy_runtime) (E:=silent_env) playlist_url
             empty_world).2 !! toy_tmpname = Some [].
Proof.
  eapply (fetch_playlist_data_leaves_temp_file (R:=toy_runtime) (E:=silent_env)
            playlist_url empty_world [] _ _ [] JSONDecodeError).
  - reflexivity.
  - vm_compute. reflexivity.
  - reflexivity.
Defined.


(** C7 on two tracks and tools that cannot be run: both tracks are counted,
    and the first one ends as a failure. *)
Lemma track_failure_does_not_abort_witness :
  (process_track (R:=toy_runtime) (E:=failing_env) album_folder 1 song_record
     empty_world).1 = Ok Failed
  ∧ ∃ c' w',
      download_tracks (R:=toy_runtime) (E:=failing_env) album_folder
        [song_record; PInt 1] empty_world = (Ok c', w')
      ∧ success_count c' + failed_count c' = 2.
Proof.
  destruct (track_failure_does_not_abort (R:=toy_runtime) (E:=failing_env)
              (process_track (R:=toy_runtime) (E:=failing_env) album_folder)
              album_folder 1 [song_record; PInt 1]
              {| success_count := 0; failed_count := 0 |} empty_world)
    as (_ & _ & _ & Hfail & Hall).
  split; [|exact Hall].
  apply Hfail.
  - reflexivity.
  - intros w cmd. by eexists _, _.
  - vm_compute. reflexivity.
Defined.

(** * The further properties on concrete inputs *)

(** X1 on a name with a slash, a colon and a star, and on a number. *)
Lemma clean_filename_safe_witness :
  (forallb (is_safe (R:=toy_runtime))
     (clean_filename (R:=toy_runtime) (PStr (lit " AC/DC: Back*In Black ")))
   = true
   ∧ starts_clean (clean_filename (R:=toy_runtime)
                     (PStr (lit " AC/DC: Back*In Black "))) = true)
  ∧ (forallb (is_safe (R:=toy_runtime)) (clean_filename (R:=toy_runtime) (PInt 7))
     = true
     ∧ starts_clean (clean_filename (R:=toy_runtime) (PInt 7)) = true).
Proof.
  split.
  - apply (clean_filename_safe (R:=toy_runtime) (PStr (lit " AC/DC: Back*In Black "))).
    reflexivity.
  - apply (clean_filename_safe (R:=toy_runtime) (PInt 7)).
    vm_compute. reflexivity.
Defined.

(** X3 on a URL in capitals and the same URL in small letters. *)
Lemma classification_ignores_case_witness :
  get_url_type (R:=toy_runtime) (PStr shouted_url)
  = get_url_type (R:=toy_runtime) (PStr whispered_url)
  ∧ is_valid_spotify_url (R:=toy_runtime) (PStr shouted_url)
    = is_valid_spotify_url (R:=toy_runtime) (PStr whispered_url).
Proof.
  apply (classification_ignores_case (R:=toy_runtime) shouted_url whispered_url);
    reflexivity.
Defined.

(** X4 on a URL with an album marker in its path and a playlist marker in
    its query, and the other way round. *)
Lemma playlist_marker_wins_witness :
  get_url_type (R:=toy_runtime)
    (PStr (lit "https://open." ++ lit "spotify.com/album/" ++ lit "x?next="
           ++ lit "spotify.com/playlist/" ++ lit "y"))
  = lit "playlist"
  ∧ get_url_type (R:=toy_runtime)
      (PStr (lit "https://open." ++ lit "spotify.com/playlist/" ++ lit "x?next="
             ++ lit "spotify.com/album/" ++ lit "y"))
    = lit "playlist".
Proof.
  apply (playlist_marker_wins (R:=toy_runtime)
           (lit "https://open.") (lit "x?next=") (lit "y")); reflexivity.
Defined.

(** X7 on a metadata file that holds an empty record. *)
Lemma fetch_playlist_data_shapes_witness :
  fetch_playlist_data (R:=toy_runtime) (E:=empty_record_env) playlist_url
    empty_world
  = (Ok (normalized (R:=toy_runtime) playlist_url (PDict [])),
     {| files := delete toy_tmpname (<[toy_tmpname := lit "{}"]>
                                       (<[toy_tmpname := []]> ∅));
        dirs := dirs empty_world;
        spawned := [save_command (R:=toy_runtime) playlist_url toy_tmpname] |})
  ∧ (is_dict (PDict []) = true →
     normalized (R:=toy_runtime) playlist_url (PDict []) = PDict [])
  ∧ (is_dict (PDict []) = false → is_list (PDict []) = false →
     normalized (R:=toy_runtime) playlist_url (PDict []) = PNone).
Proof.
  apply (fetch_playlist_data_shapes (R:=toy_runtime) (E:=empty_record_env)
           playlist_url empty_world [] _ _ (lit "{}") (PDict [])).
  - reflexivity.
  - vm_compute. reflexivity.
  - reflexivity.
Defined.

(** X9 on tools that cannot be run: the empty temporary file stays. *)
Lemma fetch_playlist_data_tool_failure_witness :
  fetch_playlist_data (R:=toy_runtime) (E:=failing_env) playlist_url empty_world
  = (Ok PNone,
     after_run empty_world (save_command (R:=toy_runtime) playlist_url toy_tmpname)
       (files (with_temp_file (E:=failing_env) empty_world), dirs empty_world))
  ∧ files (fetch_playlist_data (R:=toy_runtime) (E:=failing_env) playlist_url
             empty_world).2 !! toy_tmpname = Some [].
Proof.
  destruct (fetch_playlist_data_tool_failure (R:=toy_runtime) (E:=failing_env)
              playlist_url empty_world CalledProcessError
              (files (with_temp_file (E:=failing_env) empty_world),
               dirs empty_world)) as [H1 H2].
  - reflexivity.
  - split; [exact H1|]. etrans; [exact H2|]. vm_compute. reflexivity.
Defined.

(** X12 on an output of four lines: the warning and the empty line are
    passed over, the third line gives the URL, the fourth is not read. *)
Lemma search_youtube_track_first_result_witness :
  search_youtube_track (R:=video_runtime) (E:=search_env) (lit "A") (PStr (lit "Song"))
    empty_world
  = (Ok (PStr (lit "https://youtu.be/x")),
     after_run empty_world
       (search_command (R:=video_runtime) (lit "A") (PStr (lit "Song")))
       (files empty_world, dirs empty_world)).
Proof.
  apply (search_youtube_track_first_result (R:=video_runtime) (E:=search_env)
           (lit "A") (PStr (lit "Song")) empty_world search_output
           (files empty_world, dirs empty_world)
           [lit "WARNING"; []] video_text [lit "7"] video_record).
  - reflexivity.
  - vm_compute. reflexivity.
  - constructor; [right; exists JSONDecodeError; reflexivity|].
    constructor; [left; reflexivity|]. constructor.
  - discriminate.
  - reflexivity.
Defined.

(** X13 on a track with a source reference and tools that work. *)
Lemma process_track_primary_success_witness :
  process_track (R:=toy_runtime) (E:=online_env) album_folder 1 song_record
    empty_world
  = (Ok Downloaded,
     after_run empty_world
       (primary_command (R:=toy_runtime) (PStr (lit "spotify:track:1"))
          (lit "Downloads/Album"))
       (files empty_world, dirs empty_world)).
Proof.
  apply (process_track_primary_success (R:=toy_runtime) (E:=online_env)
           album_folder 1 song_record empty_world []
           (files empty_world, dirs empty_world)).
  - reflexivity.
  - vm_compute. reflexivity.
  - reflexivity.
  - reflexivity.
Defined.

(** X14 on a track that is a number, with tools that cannot be run: the one
    process is the search. *)
Lemma process_track_without_reference_witness :
  spawned (process_track (R:=toy_runtime) (E:=failing_env) album_folder 1 (PInt 7)
             empty_world).2
  = [search_command (R:=toy_runtime) [] (PStr (lit "Track_1"))].
Proof.
  destruct (process_track_without_reference (R:=toy_runtime) (E:=failing_env)
              album_folder 1 (PInt 7) empty_world) as [H|[video_url H]].
  - reflexivity.
  - vm_compute. reflexivity.
  - reflexivity.
  - exact H.
  - vm_compute in H. discriminate H.
Defined.

(** X16 on the folder that holds the file of the one track already. *)
Lemma download_tracks_resume_witness :
  download_tracks (R:=toy_runtime) (E:=silent_env) album_folder [song_record]
    resumed_world
  = (Ok {| success_count := 1; failed_count := 0 |}, resumed_world).
Proof.
  apply (download_tracks_resume (R:=toy_runtime) (E:=silent_env)
           album_folder [song_record] resumed_world).
  intros [|k] track Hk; [|discriminate Hk].
  injection Hk as <-. split; [reflexivity|]. exists (lit "mp3").
  apply (bool_decide_unpack _). vm_compute. exact I.
Defined.

(** X17 on a list of two tracks and download tools that fail: both tracks
    are counted. *)
Lemma download_collection_counts_witness :
  ∃ r w',
    download_collection_run (R:=toy_runtime) (E:=two_tracks_env) downloader
      playlist_url empty_world = (Ok r, w')
    ∧ success_count (tally r) + failed_count (tally r) = 2
    ∧ overall r = bool_decide (0 < success_count (tally r)).
Proof.
  eapply (download_collection_counts (R:=toy_runtime) (E:=two_tracks_env)
            downloader playlist_url empty_world
            (converted_data (R:=toy_runtime) playlist_url (PList [PInt 1; PInt 2]))
            (fetch_playlist_data (R:=toy_runtime) (E:=two_tracks_env) playlist_url
               empty_world).2
            [PInt 1; PInt 2]
            (mkdir_exist_ok
               (destination_folder (R:=toy_runtime) downloader
                  (get_url_type (R:=toy_runtime) playlist_url)
                  (converted_data (R:=toy_runtime) playlist_url
                     (PList [PInt 1; PInt 2])))
               (fetch_playlist_data (R:=toy_runtime) (E:=two_tracks_env)
                  playlist_url empty_world).2).2).
  - vm_compute. reflexivity.
  - reflexivity.
  - reflexivity.
  - reflexivity.
  - reflexivity.
  - vm_compute. reflexivity.
Defined.

(** X18 on a world where a regular file is in the way of the folder. *)
Lemma download_collection_gives_up_witness :
  download_collection (R:=toy_runtime) (E:=two_tracks_env) downloader playlist_url
    blocked_world
  = (false,
     (fetch_playlist_data (R:=toy_runtime) (E:=two_tracks_env) playlist_url
        blocked_world).2).
Proof.
  apply (download_collection_gives_up (R:=toy_runtime) (E:=two_tracks_env)
           downloader playlist_url blocked_world
           (converted_data (R:=toy_runtime) playlist_url (PList [PInt 1; PInt 2]))).
  - vm_compute. reflexivity.
  - do 3 right. eexists _, _. vm_compute. reflexivity.
Defined.

(** X19 on two lines that are no URLs, the word Done between spaces and a
    playlist URL after it: nothing is run. *)
Lemma interactive_playlist_download_lines_witness :
  interactive_playlist_download (R:=toy_runtime) (E:=two_tracks_env) downloader
    (idle_lines ++ lit " Done " :: [whispered_url]) empty_world
  = (Finished, empty_world).
Proof.
  destruct (interactive_playlist_download_lines (R:=toy_runtime)
              (E:=two_tracks_env) downloader idle_lines (lit " Done ")
              [whispered_url] empty_world) as (_ & _ & H).
  - reflexivity.
  - apply H. reflexivity.
Defined.

(** X15 on a track with a source reference and tools that cannot be run:
    two runs of the primary tool, then the search. *)
Lemma process_track_primary_failure_witness :
  ∃ tail,
    spawned (process_track (R:=toy_runtime) (E:=failing_env) album_folder 1
               song_record empty_world).2
    = spawned empty_world
      ++ [primary_command (R:=toy_runtime) (PStr (lit "spotify:track:1"))
            (lit "Downloads/Album");
          reduced_command (R:=toy_runtime) (PStr (lit "spotify:track:1"))
            (lit "Downloads/Album");
          search_command (R:=toy_runtime) (lit "A, B") (PStr (lit "Song"))]
      ++ tail
    ∧ length tail ≤ 1.
Proof.
  apply (process_track_primary_failure (R:=toy_runtime) (E:=failing_env)
           album_folder 1 song_record empty_world
           CalledProcessError (files empty_world, dirs empty_world)
           CalledProcessError (files empty_world, dirs empty_world)).
  - reflexivity.
  - vm_compute. reflexivity.
  - reflexivity.
  - reflexivity.
  - reflexivity.
Defined.
